(** * stoxum-lib: payment compilation and path finding

    A shallow embedding of [src/transaction/payment.ts] and
    [src/ledger/pathfind.ts], and the properties of the intent compiler and of
    the route-discovery post-processing stated over it.

    Conventions of the embedding:
    - a JavaScript object is a record; an optional property ([x?: T], or a
      property the code tests against [undefined]) is an [option];
    - an exception is a [Throw] in the [result] monad; reading a property of
      [undefined] throws [TypeError];
    - asynchronous code is a tree of requests to the outside world
      ([Promise]); a synchronous [throw] and a rejected promise are both a
      [Reject] leaf;
    - whatever is imported from outside the two files (amount encoder, memo
      encoder, JSON parser, arbitrary-precision numbers, schema validators,
      path parser, flag constants) is a field of [Externals]. *)

From Stdlib Require Import String Ascii List ZArith Bool Lia.
Import ListNotations.
Open Scope string_scope.
Open Scope Z_scope.

(** ** Exceptions *)

Inductive Error : Type :=
| ValidationError (message : string)
| NotFoundError (message : string)
| TypeError
| OtherError (message : string).

Inductive result (A : Type) : Type :=
| Ok (a : A)
| Throw (e : Error).
Arguments Ok {A} a.
Arguments Throw {A} e.

Definition bind {A B : Type} (r : result A) (k : A -> result B) : result B :=
  match r with
  | Ok a => k a
  | Throw e => Throw e
  end.

Notation "x <- r ;; k" := (bind r (fun x => k))
  (at level 61, r at next level, right associativity).

(** [o.f] where [o] may be [undefined]. *)
Definition deref {A : Type} (o : option A) : result A :=
  match o with
  | Some a => Ok a
  | None => Throw TypeError
  end.

(** [x !== undefined] *)
Definition defined {A : Type} (o : option A) : bool :=
  match o with
  | Some _ => true
  | None => false
  end.

(** [x === true] for an optional boolean. *)
Definition is_true (o : option bool) : bool :=
  match o with
  | Some true => true
  | _ => false
  end.

(** ** Amounts ([common/types/objects]) *)

Record Amount : Type := mkAmount {
  currency : string;
  value : string;
  counterparty : option string
}.

(** The protocol amount: a decimal string for the native currency, an object
    for an issued currency. *)
Record IssuedAmount : Type := mkIssued {
  iou_currency : string;
  iou_issuer : option string;
  iou_value : string
}.

Inductive StoxumdAmount : Type :=
| AmountString (drops : string)
| AmountObject (o : IssuedAmount).

Inductive AmountKey : Type := key_amount | key_minAmount | key_maxAmount.

(** [Adjustment | MaxAdjustment | MinAdjustment]: the code tells them apart
    by the presence of a property, so one record carries the three amount
    properties. *)
Record Adjustment : Type := mkAdjustment {
  address : string;
  tag : option Z;
  amount : option Amount;
  minAmount : option Amount;
  maxAmount : option Amount
}.

(** [adjustment[key]] *)
Definition get_key (adjustment : Adjustment) (key : AmountKey)
  : option Amount :=
  match key with
  | key_amount => amount adjustment
  | key_minAmount => minAmount adjustment
  | key_maxAmount => maxAmount adjustment
  end.

Definition with_counterparty (a : Amount) (c : string) : Amount :=
  {| currency := currency a; value := value a; counterparty := Some c |}.

(** [adjustment[key].counterparty = c] *)
Definition set_key_counterparty (adjustment : Adjustment) (key : AmountKey)
  (c : string) : Adjustment :=
  let upd := option_map (fun a => with_counterparty a c) in
  match key with
  | key_amount =>
      {| address := address adjustment; tag := tag adjustment;
         amount := upd (amount adjustment);
         minAmount := minAmount adjustment;
         maxAmount := maxAmount adjustment |}
  | key_minAmount =>
      {| address := address adjustment; tag := tag adjustment;
         amount := amount adjustment;
         minAmount := upd (minAmount adjustment);
         maxAmount := maxAmount adjustment |}
  | key_maxAmount =>
      {| address := address adjustment; tag := tag adjustment;
         amount := amount adjustment;
         minAmount := minAmount adjustment;
         maxAmount := upd (maxAmount adjustment) |}
  end.

(** ** What the two files import *)

Class ExternalTypes : Type := {
  Memo : Type;
  MemoJSON : Type;
  PathsJSON : Type;
  Instructions : Type;
  Prepare : Type;
  SourceCurrency : Type;
  StoxumdCurrency : Type;
  PathComputed : Type;
  GetPaths : Type
}.

Section Objects.

Context {T : ExternalTypes}.

Record Payment : Type := mkPayment {
  source : Adjustment;
  destination : Adjustment;
  paths : option string;
  memos : option (list Memo);
  invoiceID : option string;
  allowPartialPayment : option bool;
  noDirectStoxum : option bool;
  limitQuality : option bool
}.

Record TxJSON : Type := mkTx {
  tx_TransactionType : string;
  tx_Account : string;
  tx_Destination : string;
  tx_Amount : StoxumdAmount;
  tx_Flags : Z;
  tx_InvoiceID : option string;
  tx_SourceTag : option Z;
  tx_DestinationTag : option Z;
  tx_Memos : option (list MemoJSON);
  tx_SendMax : option StoxumdAmount;
  tx_DeliverMin : option StoxumdAmount;
  tx_Paths : option PathsJSON
}.


(** *** [ledger/pathfind-types] *)

(** [destination.amount] of a route query: the value is optional. *)
Record LaxAmount : Type := mkLax {
  lax_currency : string;
  lax_value : option string;
  lax_counterparty : option string
}.

Record PathFindSource : Type := mkPFSource {
  pf_source_address : string;
  pf_source_amount : option Amount;
  pf_source_currencies : option (list SourceCurrency)
}.

Record PathFindDestination : Type := mkPFDestination {
  pf_destination_address : string;
  pf_destination_amount : LaxAmount
}.

Record PathFind : Type := mkPathFind {
  pf_source : PathFindSource;
  pf_destination : PathFindDestination
}.

Record PathFindRequest : Type := mkRequest {
  command : string;
  source_account : string;
  destination_account : string;
  destination_amount : StoxumdAmount;
  source_currencies : option (list StoxumdCurrency);
  send_max : option StoxumdAmount
}.

Record Alternative : Type := mkAlternative {
  paths_computed : list PathComputed;
  source_amount : option StoxumdAmount
}.

(** What the server answers to [ripple_path_find]; [addParams] below
    completes it. *)
Record RawPathsResponse : Type := mkRaw {
  raw_alternatives : option (list Alternative);
  raw_destination_account : string;
  raw_destination_amount : option StoxumdAmount;
  raw_destination_currencies : option (list string)
}.

Record StoxumdPathsResponse : Type := mkPaths {
  alternatives : option (list Alternative);
  rsp_destination_account : string;
  rsp_destination_amount : StoxumdAmount;
  destination_currencies : option (list string);
  rsp_source_account : string;
  rsp_source_currencies : option (list StoxumdCurrency)
}.

End Objects.

Class Externals (T : ExternalTypes) : Type := {
  (** [common.toStoxumdAmount] *)
  toStoxumdAmount : Amount -> StoxumdAmount;
  (** [utils.convertMemo] *)
  convertMemo : Memo -> MemoJSON;
  (** [JSON.parse], which throws on malformed text *)
  JSON_parse : string -> result PathsJSON;
  (** [common.txFlags.Payment] *)
  NoStoxumDirect : Z;
  LimitQuality : Z;
  PartialPayment : Z;
  (** [validate.preparePayment], [validate.getPaths]: schema checks *)
  validate_preparePayment : string -> Payment -> Instructions -> result unit;
  validate_getPaths : PathFind -> result unit;
  (** [ledger/utils.renameCounterpartyToIssuer] *)
  renameCounterpartyToIssuer : SourceCurrency -> StoxumdCurrency;
  (** [new BigNumber(x).eq(y)] on two decimal strings; the comparisons are
      taken as total: with something that is not a number they answer
      [false] *)
  BigNumber_eq : string -> string -> bool;
  (** [new BigNumber(x).greaterThanOrEqualTo(y)], [y] a protocol amount.
      Only its answers on a string operand are relied on: what the library
      does with an object operand is left out of every statement *)
  BigNumber_gte : string -> StoxumdAmount -> bool;
  (** [ledger/parse/pathfind], on a response whose alternatives all have a
      source amount *)
  parsePathfind : StoxumdPathsResponse -> GetPaths
}.

(** ** [src/transaction/payment.ts] *)

Section PaymentCompiler.

Context {T : ExternalTypes} {X : Externals T}.

Definition isMaxAdjustment (source : Adjustment) : bool :=
  defined (maxAmount source).

Definition isMinAdjustment (destination : Adjustment) : bool :=
  defined (minAmount destination).

Definition isXRPToXRPPayment (payment : Payment) : result bool :=
  let source := source payment in
  let destination := destination payment in
  sourceCurrency <-
    (if isMaxAdjustment source
     then a <- deref (maxAmount source) ;; Ok (currency a)
     else a <- deref (amount source) ;; Ok (currency a)) ;;
  destinationCurrency <-
    (if isMinAdjustment destination
     then a <- deref (minAmount destination) ;; Ok (currency a)
     else a <- deref (amount destination) ;; Ok (currency a)) ;;
  Ok ((sourceCurrency =? "XRP")%string
      && (destinationCurrency =? "XRP")%string).

Definition isIOUWithoutCounterparty (amount : option Amount) : bool :=
  match amount with
  | None => false
  | Some amount =>
      negb (currency amount =? "XRP")%string
      && negb (defined (counterparty amount))
  end.

(** The inner [_.forEach] of [applyAnyCounterpartyEncoding], on one
    adjustment. *)
Definition encodeAdjustment (adjustment : Adjustment) : Adjustment :=
  fold_left
    (fun adjustment key =>
       if isIOUWithoutCounterparty (get_key adjustment key)
       then set_key_counterparty adjustment key (address adjustment)
       else adjustment)
    [key_amount; key_minAmount; key_maxAmount] adjustment.

(** The payment is updated in place in the source; here the updated payment
    is returned. The writes on amount objects that several properties share
    are those of [applyAnyCounterpartyEncodingInPlace] below. *)
Definition applyAnyCounterpartyEncoding (payment : Payment) : Payment :=
  match map encodeAdjustment [source payment; destination payment] with
  | [source'; destination'] =>
      {| source := source'; destination := destination';
         paths := paths payment; memos := memos payment;
         invoiceID := invoiceID payment;
         allowPartialPayment := allowPartialPayment payment;
         noDirectStoxum := noDirectStoxum payment;
         limitQuality := limitQuality payment |}
  | _ => payment
  end.

Definition maxXRPValue : string := "100000000000".
Definition maxIOUValue : string := "9999999999999999e80".

Definition createMaximalAmount (amount : Amount) : Amount :=
  let maxValue :=
    if (currency amount =? "XRP")%string then maxXRPValue else maxIOUValue in
  {| currency := currency amount; value := maxValue;
     counterparty := counterparty amount |}.

(** [_.cloneDeep]: the intent is a value here, its copy is the same value.
    This is the compiler on an intent whose amount properties are separate
    objects, as in an intent read from JSON. An intent in which two
    properties hold one and the same amount object is an object graph:
    [createPaymentTransactionObject] below compiles those, with the sharing
    that [_.cloneDeep] keeps, and [applyAnyCounterpartyEncodingInPlace_separate]
    shows that the two agree when source and destination share nothing. *)
Definition cloneDeep {A : Type} (x : A) : A := x.

(** Assignments to properties of [txJSON]. *)
Definition set_InvoiceID (tx : TxJSON) (v : string) : TxJSON :=
  mkTx (tx_TransactionType tx) (tx_Account tx) (tx_Destination tx)
    (tx_Amount tx) (tx_Flags tx) (Some v) (tx_SourceTag tx)
    (tx_DestinationTag tx) (tx_Memos tx) (tx_SendMax tx) (tx_DeliverMin tx)
    (tx_Paths tx).

Definition set_SourceTag (tx : TxJSON) (v : Z) : TxJSON :=
  mkTx (tx_TransactionType tx) (tx_Account tx) (tx_Destination tx)
    (tx_Amount tx) (tx_Flags tx) (tx_InvoiceID tx) (Some v)
    (tx_DestinationTag tx) (tx_Memos tx) (tx_SendMax tx) (tx_DeliverMin tx)
    (tx_Paths tx).

Definition set_DestinationTag (tx : TxJSON) (v : Z) : TxJSON :=
  mkTx (tx_TransactionType tx) (tx_Account tx) (tx_Destination tx)
    (tx_Amount tx) (tx_Flags tx) (tx_InvoiceID tx) (tx_SourceTag tx)
    (Some v) (tx_Memos tx) (tx_SendMax tx) (tx_DeliverMin tx)
    (tx_Paths tx).

Definition set_Memos (tx : TxJSON) (v : list MemoJSON) : TxJSON :=
  mkTx (tx_TransactionType tx) (tx_Account tx) (tx_Destination tx)
    (tx_Amount tx) (tx_Flags tx) (tx_InvoiceID tx) (tx_SourceTag tx)
    (tx_DestinationTag tx) (Some v) (tx_SendMax tx) (tx_DeliverMin tx)
    (tx_Paths tx).

Definition set_Flags (tx : TxJSON) (v : Z) : TxJSON :=
  mkTx (tx_TransactionType tx) (tx_Account tx) (tx_Destination tx)
    (tx_Amount tx) v (tx_InvoiceID tx) (tx_SourceTag tx)
    (tx_DestinationTag tx) (tx_Memos tx) (tx_SendMax tx) (tx_DeliverMin tx)
    (tx_Paths tx).

Definition set_SendMax (tx : TxJSON) (v : StoxumdAmount) : TxJSON :=
  mkTx (tx_TransactionType tx) (tx_Account tx) (tx_Destination tx)
    (tx_Amount tx) (tx_Flags tx) (tx_InvoiceID tx) (tx_SourceTag tx)
    (tx_DestinationTag tx) (tx_Memos tx) (Some v) (tx_DeliverMin tx)
    (tx_Paths tx).

Definition set_DeliverMin (tx : TxJSON) (v : StoxumdAmount) : TxJSON :=
  mkTx (tx_TransactionType tx) (tx_Account tx) (tx_Destination tx)
    (tx_Amount tx) (tx_Flags tx) (tx_InvoiceID tx) (tx_SourceTag tx)
    (tx_DestinationTag tx) (tx_Memos tx) (tx_SendMax tx) (Some v)
    (tx_Paths tx).

Definition set_Paths (tx : TxJSON) (v : PathsJSON) : TxJSON :=
  mkTx (tx_TransactionType tx) (tx_Account tx) (tx_Destination tx)
    (tx_Amount tx) (tx_Flags tx) (tx_InvoiceID tx) (tx_SourceTag tx)
    (tx_DestinationTag tx) (tx_Memos tx) (tx_SendMax tx) (tx_DeliverMin tx)
    (Some v).

(** [if (o !== undefined) tx.f = o] *)
Definition set_if_defined {A : Type} (set : TxJSON -> A -> TxJSON)
  (o : option A) (tx : TxJSON) : TxJSON :=
  match o with
  | Some v => set tx v
  | None => tx
  end.

(** [toStoxumdAmount] reads [amount.currency] first: an absent amount
    throws. *)
Definition encodeAmount (amount : option Amount) : result StoxumdAmount :=
  a <- deref amount ;; Ok (toStoxumdAmount a).

Definition msg_address : string :=
  "address must match payment.source.address".
Definition msg_adjustment : string :=
  "payment must specify either (source.maxAmount "
  ++ "and destination.amount) or (source.amount and destination.minAmount)".
Definition msg_partial : string :=
  "XRP to XRP payments cannot be partial payments".

(** Lines 97-110: the amounts the transaction is built from. *)
Definition destinationAmountOf (payment : Payment) : option Amount :=
  if isMinAdjustment (destination payment)
  then minAmount (destination payment) else amount (destination payment).

Definition sourceAmountOf (payment : Payment) : option Amount :=
  if isMaxAdjustment (source payment)
  then maxAmount (source payment) else amount (source payment).

Definition deliveryAmount (payment : Payment) : result (option Amount) :=
  let destinationAmount := destinationAmountOf payment in
  if isMinAdjustment (destination payment)
  then
    xrp <- isXRPToXRPPayment payment ;;
    if negb xrp
    then a <- deref destinationAmount ;; Ok (Some (createMaximalAmount a))
    else Ok destinationAmount
  else Ok destinationAmount.

Definition createPaymentTransaction (address' : string)
  (paymentArgument : Payment) : result TxJSON :=
  let payment := applyAnyCounterpartyEncoding (cloneDeep paymentArgument) in
  if negb (address' =? address (source payment))%string
  then Throw (ValidationError msg_address)
  else
  if (isMaxAdjustment (source payment) && isMinAdjustment (destination payment))
     || (negb (isMaxAdjustment (source payment))
         && negb (isMinAdjustment (destination payment)))
  then Throw (ValidationError msg_adjustment)
  else
  let destinationAmount := destinationAmountOf payment in
  let sourceAmount := sourceAmountOf payment in
  amount <- deliveryAmount payment ;;
  encoded <- encodeAmount amount ;;
  let txJSON :=
    {| tx_TransactionType := "Payment";
       tx_Account := address (source payment);
       tx_Destination := address (destination payment);
       tx_Amount := encoded;
       tx_Flags := 0;
       tx_InvoiceID := None; tx_SourceTag := None; tx_DestinationTag := None;
       tx_Memos := None; tx_SendMax := None; tx_DeliverMin := None;
       tx_Paths := None |} in
  let txJSON := set_if_defined set_InvoiceID (invoiceID payment) txJSON in
  let txJSON := set_if_defined set_SourceTag (tag (source payment)) txJSON in
  let txJSON :=
    set_if_defined set_DestinationTag (tag (destination payment)) txJSON in
  let txJSON :=
    set_if_defined set_Memos
      (option_map (map convertMemo) (memos payment)) txJSON in
  let txJSON :=
    if is_true (noDirectStoxum payment)
    then set_Flags txJSON (Z.lor (tx_Flags txJSON) NoStoxumDirect)
    else txJSON in
  let txJSON :=
    if is_true (limitQuality payment)
    then set_Flags txJSON (Z.lor (tx_Flags txJSON) LimitQuality)
    else txJSON in
  xrp <- isXRPToXRPPayment payment ;;
  if negb xrp
  then
    let txJSON :=
      if is_true (allowPartialPayment payment)
         || isMinAdjustment (destination payment)
      then set_Flags txJSON (Z.lor (tx_Flags txJSON) PartialPayment)
      else txJSON in
    sendMax <- encodeAmount sourceAmount ;;
    let txJSON := set_SendMax txJSON sendMax in
    txJSON <-
      (if isMinAdjustment (destination payment)
       then deliverMin <- encodeAmount destinationAmount ;;
            Ok (set_DeliverMin txJSON deliverMin)
       else Ok txJSON) ;;
    match paths payment with
    | Some text => parsed <- JSON_parse text ;; Ok (set_Paths txJSON parsed)
    | None => Ok txJSON
    end
  else
    if is_true (allowPartialPayment payment)
    then Throw (ValidationError msg_partial)
    else Ok txJSON.

End PaymentCompiler.

(** ** Asynchronous calls

    A computation that waits for the outside world is a tree: a leaf is a
    settled promise, an inner node is one call on the connection together
    with what is done with its answer. *)

Section Promises.

Context {T : ExternalTypes}.

Inductive Promise (A : Type) : Type :=
| Resolve (a : A)
| Reject (e : Error)
| connection_request (request : PathFindRequest)
    (k : RawPathsResponse -> Promise A)
| getXRPBalance (account : string) (k : string -> Promise A)
| prepareTransaction (txJSON : TxJSON) (instructions : Instructions)
    (k : Prepare -> Promise A).

Arguments Resolve {A} a.
Arguments Reject {A} e.
Arguments connection_request {A} request k.
Arguments getXRPBalance {A} account k.
Arguments prepareTransaction {A} txJSON instructions k.

(** [p.then(f)] *)
Fixpoint then_ {A B : Type} (p : Promise A) (f : A -> Promise B) : Promise B :=
  match p with
  | Resolve a => f a
  | Reject e => Reject e
  | connection_request r k => connection_request r (fun x => then_ (k x) f)
  | getXRPBalance a k => getXRPBalance a (fun x => then_ (k x) f)
  | prepareTransaction t i k => prepareTransaction t i (fun x => then_ (k x) f)
  end.

(** A synchronous function used as a [then] callback. *)
Definition settle {A : Type} (r : result A) : Promise A :=
  match r with
  | Ok a => Resolve a
  | Throw e => Reject e
  end.

(** The outside world: what each call answers, or how it fails. *)
Record Connection : Type := mkConnection {
  answer_request : PathFindRequest -> result RawPathsResponse;
  answer_balance : string -> result string;
  answer_prepare : TxJSON -> Instructions -> result Prepare
}.

Inductive Call : Type :=
| CallRequest (request : PathFindRequest)
| CallBalance (account : string)
| CallPrepare (txJSON : TxJSON).

(** Running a computation against a connection: the calls made, in order,
    and the outcome. *)
Fixpoint run {A : Type} (c : Connection) (p : Promise A)
  : list Call * result A :=
  match p with
  | Resolve a => ([], Ok a)
  | Reject e => ([], Throw e)
  | connection_request r k =>
      match answer_request c r with
      | Ok x => let (calls, out) := run c (k x) in (CallRequest r :: calls, out)
      | Throw e => ([CallRequest r], Throw e)
      end
  | getXRPBalance a k =>
      match answer_balance c a with
      | Ok x => let (calls, out) := run c (k x) in (CallBalance a :: calls, out)
      | Throw e => ([CallBalance a], Throw e)
      end
  | prepareTransaction t i k =>
      match answer_prepare c t i with
      | Ok x => let (calls, out) := run c (k x) in (CallPrepare t :: calls, out)
      | Throw e => ([CallPrepare t], Throw e)
      end
  end.

(** Settled without any call. *)
Definition settled {A : Type} (p : Promise A) : bool :=
  match p with
  | Resolve _ | Reject _ => true
  | _ => false
  end.

End Promises.

Arguments Resolve {T A} a.
Arguments Reject {T A} e.
Arguments connection_request {T A} request k.
Arguments getXRPBalance {T A} account k.
Arguments prepareTransaction {T A} txJSON instructions k.

Section PreparePayment.

Context {T : ExternalTypes} {X : Externals T}.

(** [utils.prepareTransaction] stamps fee and sequence over the network: it
    is the one call of this computation. *)
Definition preparePayment (address' : string) (payment : Payment)
  (instructions : Instructions) : Promise Prepare :=
  match validate_preparePayment address' payment instructions with
  | Throw e => Reject e
  | Ok _ =>
      match createPaymentTransaction address' payment with
      | Throw e => Reject e
      | Ok txJSON => prepareTransaction txJSON instructions Resolve
      end
  end.

End PreparePayment.

(** ** [src/ledger/pathfind.ts] *)

Section PathFinding.

Context {T : ExternalTypes} {X : Externals T}.

(** [!s] for an optional string: absent or empty. *)
Definition falsy (o : option string) : bool :=
  match o with
  | None => true
  | Some s => (s =? "")%string
  end.

(** [_.includes(collection, value)] on an optional array of strings. *)
Definition includes (collection : option (list string)) (v : string) : bool :=
  match collection with
  | None => false
  | Some l => existsb (String.eqb v) l
  end.

Definition set_issuer (o : IssuedAmount) (issuer : string) : IssuedAmount :=
  {| iou_currency := iou_currency o; iou_issuer := Some issuer;
     iou_value := iou_value o |}.

Definition set_alternatives (paths : StoxumdPathsResponse)
  (alts : list Alternative) : StoxumdPathsResponse :=
  {| alternatives := Some alts;
     rsp_destination_account := rsp_destination_account paths;
     rsp_destination_amount := rsp_destination_amount paths;
     destination_currencies := destination_currencies paths;
     rsp_source_account := rsp_source_account paths;
     rsp_source_currencies := rsp_source_currencies paths |}.

Definition addParams (request : PathFindRequest) (result : RawPathsResponse)
  : StoxumdPathsResponse :=
  {| alternatives := raw_alternatives result;
     rsp_destination_account := raw_destination_account result;
     rsp_destination_amount :=
       match raw_destination_amount result with
       | Some a => a
       | None => destination_amount request
       end;
     destination_currencies := raw_destination_currencies result;
     rsp_source_account := source_account request;
     rsp_source_currencies := source_currencies request |}.

Definition msg_both_amounts : string :=
  "Cannot specify both source.amount"
  ++ " and destination.amount.value in getPaths".

(** Lines 25-57 of [requestPathFind]: the request, or the exception thrown
    while it is built. *)
Definition pathFindRequest (pathfind : PathFind) : result PathFindRequest :=
  let dst := pf_destination_amount (pf_destination pathfind) in
  let destinationAmount : Amount :=
    {| currency := lax_currency dst;
       value := match lax_value dst with Some v => v | None => "-1" end;
       counterparty := lax_counterparty dst |} in
  let request_source_account := pf_source_address (pf_source pathfind) in
  let request_destination_account :=
    pf_destination_address (pf_destination pathfind) in
  let request_destination_amount := toStoxumdAmount destinationAmount in
  let request_destination_amount :=
    match request_destination_amount with
    | AmountObject o =>
        if falsy (iou_issuer o)
        then AmountObject (set_issuer o request_destination_account)
        else request_destination_amount
    | AmountString _ => request_destination_amount
    end in
  let request_source_currencies :=
    match pf_source_currencies (pf_source pathfind) with
    | Some currencies =>
        if (0 <? length currencies)%nat
        then Some (map renameCounterpartyToIssuer currencies)
        else None
    | None => None
    end in
  request_send_max <-
    match pf_source_amount (pf_source pathfind) with
    | Some source_amount =>
        if defined (lax_value dst)
        then Throw (ValidationError msg_both_amounts)
        else
          let send_max := toStoxumdAmount source_amount in
          match send_max with
          | AmountObject o =>
              if falsy (iou_issuer o)
              then Ok (Some (AmountObject
                               (set_issuer o
                                  (pf_source_address (pf_source pathfind)))))
              else Ok (Some send_max)
          | AmountString _ => Ok (Some send_max)
          end
    | None => Ok None
    end ;;
  Ok {| command := "ripple_path_find";
        source_account := request_source_account;
        destination_account := request_destination_account;
        destination_amount := request_destination_amount;
        source_currencies := request_source_currencies;
        send_max := request_send_max |}.

Definition requestPathFind (pathfind : PathFind)
  : Promise StoxumdPathsResponse :=
  match pathFindRequest pathfind with
  | Throw e => Reject e
  | Ok request =>
      connection_request request
        (fun paths => Resolve (addParams request paths))
  end.

Definition addDirectXrpPath (paths : StoxumdPathsResponse)
  (xrpBalance : string) : result StoxumdPathsResponse :=
  let destinationAmount := rsp_destination_amount paths in
  if BigNumber_gte xrpBalance destinationAmount
  then
    alts <- deref (alternatives paths) ;;
    Ok (set_alternatives paths
          ({| paths_computed := [];
              source_amount := Some (rsp_destination_amount paths) |} :: alts))
  else Ok paths.

Definition isStoxumdIOUAmount (amount : StoxumdAmount) : bool :=
  match amount with
  | AmountString _ => false
  | AmountObject o =>
      negb (iou_currency o =? "")%string
      && negb (iou_currency o =? "XRP")%string
  end.

Definition conditionallyAddDirectXRPPath (address' : string)
  (paths : StoxumdPathsResponse) : Promise StoxumdPathsResponse :=
  if isStoxumdIOUAmount (rsp_destination_amount paths)
     || negb (includes (destination_currencies paths) "XRP")
  then Resolve paths
  else getXRPBalance address'
         (fun xrpBalance => settle (addDirectXrpPath paths xrpBalance)).

(** The predicate of the [_.filter] in [filterSourceFundsLowPaths]; the
    test [typeof alt.source_amount !== 'string'] is the [AmountString] case
    of the match. *)
Definition sourceFundsMatch (pathfind : PathFind) (alt : Alternative) : bool :=
  defined (source_amount alt)
  && defined (pf_source_amount (pf_source pathfind))
  && match source_amount alt, pf_source_amount (pf_source pathfind) with
     | Some (AmountObject o), Some amount =>
         BigNumber_eq (iou_value o) (value amount)
     | _, _ => false
     end.

Definition filterSourceFundsLowPaths (pathfind : PathFind)
  (paths : StoxumdPathsResponse) : StoxumdPathsResponse :=
  if defined (pf_source_amount (pf_source pathfind))
     && negb (defined (lax_value (pf_destination_amount
                                    (pf_destination pathfind))))
  then
    match alternatives paths with
    | Some alts =>
        set_alternatives paths (filter (sourceFundsMatch pathfind) alts)
    | None => paths
    end
  else paths.

Definition msg_not_accepted (wanted : string) (accepted : list string)
  : string :=
  "No paths found. "
  ++ "The destination_account does not accept "
  ++ wanted ++ ", they only accept: "
  ++ String.concat ", " accepted.

Definition msg_liquidity : string :=
  "No paths found. Please ensure"
  ++ " that the source_account has sufficient funds to execute"
  ++ " the payment in one of the specified source_currencies. If it does"
  ++ " there may be insufficient liquidity in the network to execute"
  ++ " this payment right now".

Definition msg_funds : string :=
  "No paths found."
  ++ " Please ensure that the source_account has sufficient funds to"
  ++ " execute the payment. If it does there may be insufficient liquidity"
  ++ " in the network to execute this payment right now".

(** [a && a.length > 0] *)
Definition nonempty {A : Type} (o : option (list A)) : bool :=
  match o with
  | Some (_ :: _) => true
  | _ => false
  end.

Definition formatResponse (pathfind : PathFind)
  (paths : StoxumdPathsResponse) : result GetPaths :=
  if nonempty (alternatives paths)
  then Ok (parsePathfind paths)
  else
    let wanted := lax_currency (pf_destination_amount
                                  (pf_destination pathfind)) in
    let otherwise :=
      if nonempty (rsp_source_currencies paths)
      then Throw (NotFoundError msg_liquidity)
      else Throw (NotFoundError msg_funds) in
    match destination_currencies paths with
    | Some accepted =>
        if negb (includes (Some accepted) wanted)
        then Throw (NotFoundError (msg_not_accepted wanted accepted))
        else otherwise
    | None => otherwise
    end.

(** The first three links of the chain in [getPaths]: the response as it
    reaches [formatResponse]. *)
Definition processedResponse (pathfind : PathFind)
  : Promise StoxumdPathsResponse :=
  let address' := pf_source_address (pf_source pathfind) in
  then_
    (then_ (requestPathFind pathfind)
       (fun paths => conditionallyAddDirectXRPPath address' paths))
    (fun paths => Resolve (filterSourceFundsLowPaths pathfind paths)).

Definition getPaths (pathfind : PathFind) : Promise GetPaths :=
  match validate_getPaths pathfind with
  | Throw e => Reject e
  | Ok _ =>
      then_ (processedResponse pathfind)
        (fun paths => settle (formatResponse pathfind paths))
  end.

End PathFinding.

(** ** A reference instance of the imports

    Decimal strings are read the way bignumber.js reads them: an optional
    minus sign, digits with an optional fraction (or a fraction alone), an
    optional exponent, taken as a mantissa and a power of ten; anything else
    is not a number and compares false with everything. The
    theorems below hold for every instance; this one evaluates them. *)

Module Reference.

Record decimal : Type := mkDecimal { mantissa : Z; exponent : Z }.

Definition digit (c : ascii) : option Z :=
  let n := Z.of_nat (nat_of_ascii c) in
  if (48 <=? n) && (n <=? 57) then Some (n - 48) else None.

(** The longest run of digits at the head of [s]: its value on top of [acc],
    how many digits were read, and the rest. *)
Fixpoint digits (acc count : Z) (s : string) : Z * Z * string :=
  match s with
  | String c rest =>
      match digit c with
      | Some d => digits (10 * acc + d) (count + 1) rest
      | None => (acc, count, s)
      end
  | EmptyString => (acc, count, s)
  end.

Definition exponent_part (s : string) : option Z :=
  match s with
  | EmptyString => Some 0
  | String c rest =>
      if (Ascii.eqb c "e" || Ascii.eqb c "E")%char
      then
        let (sg, rest) :=
          match rest with
          | String "-"%char r => (-1, r)
          | String "+"%char r => (1, r)
          | _ => (1, rest)
          end in
        let '(e, n, rest) := digits 0 0 rest in
        match rest with
        | EmptyString => if n =? 0 then None else Some (sg * e)
        | _ => None
        end
      else None
  end.

Definition parse (s : string) : option decimal :=
  let (sg, s) :=
    match s with
    | String "-"%char r => (-1, r)
    | _ => (1, s)
    end in
  let '(i, ni, s) := digits 0 0 s in
  let '(m, nf, s) :=
    match s with
    | String "."%char r => digits i 0 r
    | _ => (i, 0, s)
    end in
  if ni + nf =? 0 then None
  else
    match exponent_part s with
    | Some e => Some {| mantissa := sg * m; exponent := e - nf |}
    | None => None
    end.

Definition decimal_compare (a b : decimal) : comparison :=
  let e := Z.min (exponent a) (exponent b) in
  Z.compare (mantissa a * 10 ^ (exponent a - e))
            (mantissa b * 10 ^ (exponent b - e)).

Definition decimal_eq (x y : string) : bool :=
  match parse x, parse y with
  | Some a, Some b =>
      match decimal_compare a b with Eq => true | _ => false end
  | _, _ => false
  end.

Definition decimal_gte (x y : string) : bool :=
  match parse x, parse y with
  | Some a, Some b =>
      match decimal_compare a b with Lt => false | _ => true end
  | _, _ => false
  end.

(** The number a protocol amount stands for: the string itself, or the
    [value] property of the object. *)
Definition amount_value (a : StoxumdAmount) : string :=
  match a with
  | AmountString s => s
  | AmountObject o => iou_value o
  end.

#[export] Instance types : ExternalTypes := {|
  Memo := string;
  MemoJSON := string;
  PathsJSON := string;
  Instructions := unit;
  Prepare := string;
  SourceCurrency := string * option string;
  StoxumdCurrency := string * option string;
  PathComputed := list string;
  GetPaths := list (option StoxumdAmount)
|}.

(** Native amounts are kept in the unit they are given in; issued amounts
    rename [counterparty] to [issuer]. *)
Definition encode (a : Amount) : StoxumdAmount :=
  if (currency a =? "XRP")%string
  then AmountString (value a)
  else AmountObject {| iou_currency := currency a;
                       iou_issuer := counterparty a;
                       iou_value := value a |}.

#[export] Instance externals : Externals types := {|
  toStoxumdAmount := encode;
  convertMemo := fun m => m;
  JSON_parse := fun text =>
    if (text =? "")%string
    then Throw (OtherError "Unexpected end of JSON input")
    else Ok text;
  NoStoxumDirect := 65536;
  LimitQuality := 262144;
  PartialPayment := 131072;
  validate_preparePayment := fun _ _ _ => Ok tt;
  validate_getPaths := fun _ => Ok tt;
  renameCounterpartyToIssuer := fun c => c;
  BigNumber_eq := decimal_eq;
  BigNumber_gte := fun x y =>
    match y with
    | AmountString s => decimal_gte x s
    | AmountObject _ => false
    end;
  parsePathfind := fun paths =>
    match alternatives paths with
    | Some alts => map source_amount alts
    | None => []
    end
|}.

(** The same imports behind validators that refuse everything. *)
Definition rejecting : Externals types := {|
  toStoxumdAmount := encode;
  convertMemo := fun m => m;
  JSON_parse := fun text => Ok text;
  NoStoxumDirect := 65536;
  LimitQuality := 262144;
  PartialPayment := 131072;
  validate_preparePayment := fun _ _ _ =>
    Throw (ValidationError "instance does not match schema");
  validate_getPaths := fun _ =>
    Throw (ValidationError "instance does not match schema");
  renameCounterpartyToIssuer := fun c => c;
  BigNumber_eq := decimal_eq;
  BigNumber_gte := fun _ _ => false;
  parsePathfind := fun _ => []
|}.

End Reference.

(** ** Vocabulary of the specification *)

Section Vocabulary.

Context {T : ExternalTypes} {X : Externals T}.

(** Specification, section 4.1: true iff the currency is the native
    currency code. *)
Definition isNativeCurrency (a : Amount) : bool :=
  (currency a =? "XRP")%string.

(** Specification, section 4.1: if not native and counterparty is unset, set
    counterparty to the owner address; no-op otherwise. *)
Definition defaultCounterparty (ownerAddress : string) (a : Amount) : Amount :=
  if negb (isNativeCurrency a) && negb (defined (counterparty a))
  then with_counterparty a ownerAddress
  else a.

(** The two valid adjustment pairings of a payment intent. *)
Definition cappedAtMax_to_fixed (payment : Payment) : bool :=
  isMaxAdjustment (source payment)
  && negb (isMinAdjustment (destination payment)).

Definition fixed_to_flooredAtMin (payment : Payment) : bool :=
  negb (isMaxAdjustment (source payment))
  && isMinAdjustment (destination payment).

Definition validPairing (payment : Payment) : bool :=
  xorb (cappedAtMax_to_fixed payment) (fixed_to_flooredAtMin payment).

(** The zero-hop alternative of direct-route injection. *)
Definition directAlternative (paths : StoxumdPathsResponse) : Alternative :=
  {| paths_computed := [];
     source_amount := Some (rsp_destination_amount paths) |}.

(** The destination lists [wanted] among the currencies it accepts. *)
Definition accepts (paths : StoxumdPathsResponse) (wanted : string) : Prop :=
  exists accepted,
    destination_currencies paths = Some accepted /\ In wanted accepted.

(** The response carries the accepted currencies and [wanted] is not one of
    them. *)
Definition refuses (paths : StoxumdPathsResponse) (wanted : string) : Prop :=
  exists accepted,
    destination_currencies paths = Some accepted /\ ~ In wanted accepted.

(** A flag bit when it is requested, nothing otherwise. *)
Definition flag (requested : bool) (bit : Z) : Z :=
  if requested then bit else 0.

(** The transaction built from a payment whose amounts are [s] (source) and
    [d] (destination), before the paths are attached. *)
Definition paymentTransaction (payment : Payment) (s d : Amount) : TxJSON :=
  let s' := defaultCounterparty (address (source payment)) s in
  let d' := defaultCounterparty (address (destination payment)) d in
  let xrp := isNativeCurrency s && isNativeCurrency d in
  let floored := isMinAdjustment (destination payment) in
  {| tx_TransactionType := "Payment";
     tx_Account := address (source payment);
     tx_Destination := address (destination payment);
     tx_Amount :=
       toStoxumdAmount
         (if floored && negb xrp then createMaximalAmount d' else d');
     tx_Flags :=
       Z.lor
         (Z.lor (flag (is_true (noDirectStoxum payment)) NoStoxumDirect)
                (flag (is_true (limitQuality payment)) LimitQuality))
         (flag (negb xrp
                && (is_true (allowPartialPayment payment) || floored))
               PartialPayment);
     tx_InvoiceID := invoiceID payment;
     tx_SourceTag := tag (source payment);
     tx_DestinationTag := tag (destination payment);
     tx_Memos := option_map (map convertMemo) (memos payment);
     tx_SendMax := if xrp then None else Some (toStoxumdAmount s');
     tx_DeliverMin :=
       if negb xrp && floored then Some (toStoxumdAmount d') else None;
     tx_Paths := None |}.

(** The same intent with another [paths] property. *)
Definition with_paths (payment : Payment) (text : option string) : Payment :=
  {| source := source payment; destination := destination payment;
     paths := text; memos := memos payment;
     invoiceID := invoiceID payment;
     allowPartialPayment := allowPartialPayment payment;
     noDirectStoxum := noDirectStoxum payment;
     limitQuality := limitQuality payment |}.

End Vocabulary.

(** ** Intents as object graphs

    A caller may put one amount object in several properties of an intent.
    [_.cloneDeep] copies such an intent with its sharing, and counterparty
    defaulting writes on the copy in place. Here an amount property holds a
    reference into a heap of amount objects. *)

Definition ref : Type := nat.

Definition Heap : Type := ref -> option Amount.

Definition write (h : Heap) (r : ref) (a : Amount) : Heap :=
  fun r' => if Nat.eqb r' r then Some a else h r'.

Record AdjustmentObject : Type := mkAdjustmentObject {
  o_address : string;
  o_tag : option Z;
  o_amount : option ref;
  o_minAmount : option ref;
  o_maxAmount : option ref
}.

Definition ref_key (adjustment : AdjustmentObject) (key : AmountKey)
  : option ref :=
  match key with
  | key_amount => o_amount adjustment
  | key_minAmount => o_minAmount adjustment
  | key_maxAmount => o_maxAmount adjustment
  end.

(** [adjustment[key]]: the object the property refers to. *)
Definition object_key (h : Heap) (adjustment : AdjustmentObject)
  (key : AmountKey) : option Amount :=
  match ref_key adjustment key with
  | Some r => h r
  | None => None
  end.

(** The adjustment as a value, each property read through the heap. *)
Definition read_adjustment (h : Heap) (adjustment : AdjustmentObject)
  : Adjustment :=
  {| address := o_address adjustment;
     tag := o_tag adjustment;
     amount := object_key h adjustment key_amount;
     minAmount := object_key h adjustment key_minAmount;
     maxAmount := object_key h adjustment key_maxAmount |}.

(** [r] is the object of property [key]. *)
Definition is_ref (adjustment : AdjustmentObject) (key : AmountKey) (r : ref)
  : bool :=
  match ref_key adjustment key with
  | Some r' => Nat.eqb r r'
  | None => false
  end.

(** [r] is the object of one of the three amount properties. *)
Definition visited (adjustment : AdjustmentObject) (r : ref) : bool :=
  is_ref adjustment key_amount r
  || is_ref adjustment key_minAmount r
  || is_ref adjustment key_maxAmount r.

(** The inner [_.forEach] of [applyAnyCounterpartyEncoding] with its
    assignment [adjustment[key].counterparty = adjustment.address] done in
    place. *)
Definition encodeAdjustmentInPlace (adjustment : AdjustmentObject)
  (h : Heap) : Heap :=
  fold_left
    (fun h key =>
       if isIOUWithoutCounterparty (object_key h adjustment key)
       then
         match ref_key adjustment key, object_key h adjustment key with
         | Some r, Some a =>
             write h r (with_counterparty a (o_address adjustment))
         | _, _ => h
         end
       else h)
    [key_amount; key_minAmount; key_maxAmount] h.

Section ObjectGraphs.

Context {T : ExternalTypes} {X : Externals T}.

Record PaymentObject : Type := mkPaymentObject {
  o_source : AdjustmentObject;
  o_destination : AdjustmentObject;
  o_paths : option string;
  o_memos : option (list Memo);
  o_invoiceID : option string;
  o_allowPartialPayment : option bool;
  o_noDirectStoxum : option bool;
  o_limitQuality : option bool
}.

Definition read_payment (h : Heap) (payment : PaymentObject) : Payment :=
  {| source := read_adjustment h (o_source payment);
     destination := read_adjustment h (o_destination payment);
     paths := o_paths payment; memos := o_memos payment;
     invoiceID := o_invoiceID payment;
     allowPartialPayment := o_allowPartialPayment payment;
     noDirectStoxum := o_noDirectStoxum payment;
     limitQuality := o_limitQuality payment |}.

(** [applyAnyCounterpartyEncoding], lines 57-70, on the heap: the source is
    visited before the destination. *)
Definition applyAnyCounterpartyEncodingInPlace (payment : PaymentObject)
  (h : Heap) : Heap :=
  fold_left (fun h adjustment => encodeAdjustmentInPlace adjustment h)
    [o_source payment; o_destination payment] h.

(** [createPaymentTransaction] on an object graph. The clone has the
    sharing of the argument and its own heap, so the caller's heap [h] is
    not written. After the defaulting in place the function only reads the
    intent: that part is the compiler on values, whose own defaulting pass
    finds nothing left to default. *)
Definition createPaymentTransactionObject (address' : string)
  (paymentArgument : PaymentObject) (h : Heap) : result TxJSON :=
  let h' := applyAnyCounterpartyEncodingInPlace paymentArgument h in
  createPaymentTransaction address' (read_payment h' paymentArgument).

(** Source and destination share no amount object. *)
Definition separate (payment : PaymentObject) : Prop :=
  forall key r,
    ref_key (o_destination payment) key = Some r ->
    visited (o_source payment) r = false.

End ObjectGraphs.

(** ** Concrete inputs *)

Module Examples.

Import Reference.

Definition xrp (v : string) : Amount := mkAmount "XRP" v None.
Definition usd (v : string) : Amount := mkAmount "USD" v None.

(** The payment of [docs/samples/payment.js]: capped native source, fixed
    native destination. *)
Definition sample_payment : Payment :=
  mkPayment
    (mkAdjustment "rSource" None None None (Some (xrp "0.01")))
    (mkAdjustment "rKmBGxocj9Abgy25J51Mk1iqFzW9aVF9Tc" None
       (Some (xrp "0.01")) None None)
    None None None None None None.

(** The same payment asking for partial delivery. *)
Definition sample_partial : Payment :=
  mkPayment (source sample_payment) (destination sample_payment)
    None None None (Some true) None None.

(** Fixed issued source, floored issued destination. *)
Definition floored_payment : Payment :=
  mkPayment
    (mkAdjustment "rSource" None (Some (usd "5")) None None)
    (mkAdjustment "rDest" (Some 7) None (Some (usd "4")) None)
    (Some "[]") None None None None (Some true).

(** Both a maximum on the source and a minimum on the destination. *)
Definition ambiguous_payment : Payment :=
  mkPayment
    (mkAdjustment "rSource" None None None (Some (usd "5")))
    (mkAdjustment "rDest" None None (Some (usd "4")) None)
    None None None None None None.

(** Route queries. *)
Definition query (fixed : option Amount) (wanted : LaxAmount)
  (currencies : option (list (string * option string))) : PathFind :=
  mkPathFind (mkPFSource "rSource" fixed currencies)
    (mkPFDestination "rDest" wanted).

(** Spend exactly 5 USD, deliver as many EUR as possible. *)
Definition fixed_spend_query : PathFind :=
  query (Some (usd "5")) (mkLax "EUR" None None) None.

(** Spend exactly 5 of the native currency. *)
Definition native_spend_query : PathFind :=
  query (Some (xrp "5")) (mkLax "EUR" None None) None.

(** Both a fixed spend and a fixed delivery. *)
Definition both_amounts_query : PathFind :=
  query (Some (usd "5")) (mkLax "EUR" (Some "10") None) None.

(** Deliver 10 EUR, paying in USD. *)
Definition fixed_receive_query : PathFind :=
  query None (mkLax "EUR" (Some "10") None) (Some [("USD", None)]).

Definition issued (c v : string) : StoxumdAmount :=
  AmountObject (mkIssued c (Some "rIssuer") v).

Definition response (alts : list Alternative) (delivered : StoxumdAmount)
  (accepted : list string) : StoxumdPathsResponse :=
  mkPaths (Some alts) "rDest" delivered (Some accepted) "rSource" None.

(** One native alternative costing 5, one issued alternative costing 5.0,
    one issued alternative costing 4. *)
Definition three_alternatives : list Alternative :=
  [ mkAlternative [] (Some (AmountString "5"));
    mkAlternative [] (Some (issued "USD" "5.0"));
    mkAlternative [] (Some (issued "USD" "4")) ].

(** The destination takes 1 USD and also accepts the native currency. *)
Definition issued_destination : StoxumdPathsResponse :=
  response [] (issued "USD" "1") ["XRP"; "USD"].

(** The destination takes 1000000 of the native currency. *)
Definition native_destination : StoxumdPathsResponse :=
  response [] (AmountString "1000000") ["XRP"].

(** A server that finds no route to a destination accepting USD and the
    native currency, and a source holding 100. *)
Definition no_route : Connection :=
  mkConnection
    (fun _ => Ok (mkRaw (Some []) "rDest" None (Some ["XRP"; "USD"])))
    (fun _ => Ok "100")
    (fun _ _ => Ok "prepared").

(** The floored payment with paths that are not JSON. *)
Definition malformed_paths_payment : Payment :=
  with_paths floored_payment (Some "").

(** A response that lost its alternatives list. *)
Definition no_alternatives_list : StoxumdPathsResponse :=
  mkPaths None "rDest" (AmountString "1000000") (Some ["XRP"]) "rSource" None.

(** A server that answers the three alternatives to a destination accepting
    EUR. *)
Definition three_routes : Connection :=
  mkConnection
    (fun _ => Ok (mkRaw (Some three_alternatives) "rDest" None (Some ["EUR"])))
    (fun _ => Ok "100")
    (fun _ _ => Ok "prepared").

(** A connection on which every call fails. *)
Definition disconnected : Connection :=
  mkConnection
    (fun _ => Throw (OtherError "disconnected"))
    (fun _ => Throw (OtherError "disconnected"))
    (fun _ _ => Throw (OtherError "disconnected")).

(** Capped issued source, fixed issued destination. *)
Definition capped_payment : Payment :=
  mkPayment
    (mkAdjustment "rSource" None None None (Some (usd "5")))
    (mkAdjustment "rDest" None (Some (usd "4")) None None)
    None None None None None None.

(** Fixed native source, floored native destination. *)
Definition native_floored_payment : Payment :=
  mkPayment
    (mkAdjustment "rSource" None (Some (xrp "2")) None None)
    (mkAdjustment "rDest" None None (Some (xrp "1")) None)
    None None None None None None.

(** Deliver 10 USD, paying in EUR. *)
Definition accepted_query : PathFind :=
  query None (mkLax "USD" (Some "10") None) (Some [("EUR", None)]).

(** Deliver 10 USD, paying in anything. *)
Definition open_query : PathFind :=
  query None (mkLax "USD" (Some "10") None) None.

(** One amount object, 1 USD without counterparty, held both as the
    source's [maxAmount] and as the destination's [amount]. *)
Definition shared_heap : Heap := write (fun _ => None) 0%nat (usd "1").

Definition shared_intent : PaymentObject :=
  mkPaymentObject
    (mkAdjustmentObject "rSource" None None None (Some 0%nat))
    (mkAdjustmentObject "rDest" None (Some 0%nat) None None)
    None None None None None None.

(** The same payment with two amount objects. *)
Definition separate_heap : Heap := write shared_heap 1%nat (usd "1").

Definition separate_intent : PaymentObject :=
  mkPaymentObject
    (mkAdjustmentObject "rSource" None None None (Some 0%nat))
    (mkAdjustmentObject "rDest" None (Some 1%nat) None None)
    None None None None None None.

(** A floored payment whose source amount and destination minimum are one
    object. *)
Definition shared_floored_intent : PaymentObject :=
  mkPaymentObject
    (mkAdjustmentObject "rSource" None (Some 0%nat) None None)
    (mkAdjustmentObject "rDest" None None (Some 0%nat) None)
    None None None None None None.

(** The floored payment with two amount objects. *)
Definition separate_floored_intent : PaymentObject :=
  mkPaymentObject
    (mkAdjustmentObject "rSource" None (Some 0%nat) None None)
    (mkAdjustmentObject "rDest" None None (Some 1%nat) None)
    None None None None None None.

End Examples.

(** * Properties *)

(** ** Amount algebra *)

Section AmountAlgebra.

Lemma defined_option_map {A B : Type} (f : A -> B) (o : option A) :
  defined (option_map f o) = defined o.
Proof. destruct o; reflexivity. Qed.

Lemma defaultCounterparty_currency (owner : string) (a : Amount) :
  currency (defaultCounterparty owner a) = currency a.
Proof.
  unfold defaultCounterparty.
  destruct (negb (isNativeCurrency a) && negb (defined (counterparty a)));
    reflexivity.
Qed.

Lemma defaultCounterparty_value (owner : string) (a : Amount) :
  value (defaultCounterparty owner a) = value a.
Proof.
  unfold defaultCounterparty.
  destruct (negb (isNativeCurrency a) && negb (defined (counterparty a)));
    reflexivity.
Qed.

Lemma defaultCounterparty_native (owner : string) (a : Amount) :
  currency a = "XRP" -> defaultCounterparty owner a = a.
Proof.
  intros H. unfold defaultCounterparty, isNativeCurrency.
  rewrite H. reflexivity.
Qed.

Lemma defaultCounterparty_present (owner c : string) (a : Amount) :
  counterparty a = Some c -> defaultCounterparty owner a = a.
Proof.
  intros H. unfold defaultCounterparty. rewrite H. cbn.
  now rewrite andb_false_r.
Qed.

Lemma defaultCounterparty_blank (owner : string) (a : Amount) :
  currency a <> "XRP" -> counterparty a = None ->
  defaultCounterparty owner a = with_counterparty a owner.
Proof.
  intros Hc Hn. unfold defaultCounterparty, isNativeCurrency.
  apply String.eqb_neq in Hc. rewrite Hc, Hn. reflexivity.
Qed.

Lemma encodeAdjustment_address (adjustment : Adjustment) :
  address (encodeAdjustment adjustment) = address adjustment.
Proof.
  unfold encodeAdjustment; cbn.
  repeat match goal with
         | |- context [if ?b then _ else _] => destruct b; cbn
         end; reflexivity.
Qed.

Lemma encodeAdjustment_tag (adjustment : Adjustment) :
  tag (encodeAdjustment adjustment) = tag adjustment.
Proof.
  unfold encodeAdjustment; cbn.
  repeat match goal with
         | |- context [if ?b then _ else _] => destruct b; cbn
         end; reflexivity.
Qed.

Lemma encodeAdjustment_key (adjustment : Adjustment) (key : AmountKey) :
  get_key (encodeAdjustment adjustment) key
  = option_map (defaultCounterparty (address adjustment))
      (get_key adjustment key).
Proof.
  destruct adjustment as [addr tg [[c1 v1 [p1|]]|] [[c2 v2 [p2|]]|]
                            [[c3 v3 [p3|]]|]];
    destruct key; unfold encodeAdjustment; cbn;
    unfold defaultCounterparty, isNativeCurrency; cbn;
    repeat match goal with
           | |- context [(?c =? "XRP")%string] =>
               destruct (c =? "XRP")%string; cbn
           end; reflexivity.
Qed.

End AmountAlgebra.

Section CounterpartyDefaulting.

Context {T : ExternalTypes}.

Lemma applyAnyCounterpartyEncoding_source (payment : Payment) :
  source (applyAnyCounterpartyEncoding payment)
  = encodeAdjustment (source payment).
Proof. reflexivity. Qed.

Lemma applyAnyCounterpartyEncoding_destination (payment : Payment) :
  destination (applyAnyCounterpartyEncoding payment)
  = encodeAdjustment (destination payment).
Proof. reflexivity. Qed.

(** C7. [createMaximalAmount] returns a copy whose value is one fixed
    sentinel for the native currency and another, distinct sentinel in
    scientific notation for every issued currency; the issued sentinel is
    larger than the native one by more than eighty orders of magnitude; the
    currency and the counterparty of the input are kept. *)
Theorem createMaximalAmount_sentinel (a : Amount) :
  value (createMaximalAmount a)
    = (if isNativeCurrency a then "100000000000" else "9999999999999999e80")
  /\ currency (createMaximalAmount a) = currency a
  /\ counterparty (createMaximalAmount a) = counterparty a
  /\ maxXRPValue <> maxIOUValue
  /\ Reference.parse maxXRPValue = Some (Reference.mkDecimal 100000000000 0)
  /\ Reference.parse maxIOUValue
     = Some (Reference.mkDecimal 9999999999999999 80)
  /\ 100000000000 * 10 ^ 0 * 10 ^ 84 < 9999999999999999 * 10 ^ 80.
Proof.
  split; [reflexivity|].
  split; [reflexivity|].
  split; [reflexivity|].
  split; [discriminate|].
  split; [reflexivity|].
  split; [reflexivity|].
  vm_compute. reflexivity.
Qed.

End CounterpartyDefaulting.

(** ** Payment compilation *)

Section PaymentProperties.

Context {T : ExternalTypes} {X : Externals T}.

Lemma encodeAdjustment_isMax (adjustment : Adjustment) :
  isMaxAdjustment (encodeAdjustment adjustment) = isMaxAdjustment adjustment.
Proof.
  unfold isMaxAdjustment.
  change (maxAmount (encodeAdjustment adjustment))
    with (get_key (encodeAdjustment adjustment) key_maxAmount).
  rewrite encodeAdjustment_key. apply defined_option_map.
Qed.

Lemma encodeAdjustment_isMin (adjustment : Adjustment) :
  isMinAdjustment (encodeAdjustment adjustment) = isMinAdjustment adjustment.
Proof.
  unfold isMinAdjustment.
  change (minAmount (encodeAdjustment adjustment))
    with (get_key (encodeAdjustment adjustment) key_minAmount).
  rewrite encodeAdjustment_key. apply defined_option_map.
Qed.

Lemma encoded_sourceAmount (payment : Payment) :
  sourceAmountOf (applyAnyCounterpartyEncoding payment)
  = option_map (defaultCounterparty (address (source payment)))
      (sourceAmountOf payment).
Proof.
  unfold sourceAmountOf.
  rewrite applyAnyCounterpartyEncoding_source, encodeAdjustment_isMax.
  destruct (isMaxAdjustment (source payment)).
  - apply (encodeAdjustment_key (source payment) key_maxAmount).
  - apply (encodeAdjustment_key (source payment) key_amount).
Qed.

Lemma encoded_destinationAmount (payment : Payment) :
  destinationAmountOf (applyAnyCounterpartyEncoding payment)
  = option_map (defaultCounterparty (address (destination payment)))
      (destinationAmountOf payment).
Proof.
  unfold destinationAmountOf.
  rewrite applyAnyCounterpartyEncoding_destination, encodeAdjustment_isMin.
  destruct (isMinAdjustment (destination payment)).
  - apply (encodeAdjustment_key (destination payment) key_minAmount).
  - apply (encodeAdjustment_key (destination payment) key_amount).
Qed.

(** [isXRPToXRPPayment] reads the currencies of the two amounts the
    transaction is built from. *)
Lemma isXRPToXRPPayment_resolved (payment : Payment) :
  isXRPToXRPPayment payment
  = (s <- deref (sourceAmountOf payment) ;;
     d <- deref (destinationAmountOf payment) ;;
     Ok (isNativeCurrency s && isNativeCurrency d)).
Proof.
  unfold isXRPToXRPPayment, sourceAmountOf, destinationAmountOf.
  destruct (isMaxAdjustment (source payment));
    destruct (isMinAdjustment (destination payment));
    repeat match goal with
           | |- context [deref ?o] => destruct o; cbn
           end; reflexivity.
Qed.

Lemma encoded_isXRPToXRPPayment (payment : Payment) :
  isXRPToXRPPayment (applyAnyCounterpartyEncoding payment)
  = isXRPToXRPPayment payment.
Proof.
  rewrite !isXRPToXRPPayment_resolved.
  rewrite encoded_sourceAmount, encoded_destinationAmount.
  destruct (sourceAmountOf payment) as [s|];
    destruct (destinationAmountOf payment) as [d|]; cbn; try reflexivity.
  unfold isNativeCurrency. now rewrite !defaultCounterparty_currency.
Qed.

Lemma validPairing_shape (payment : Payment) :
  validPairing payment
  = negb
      ((isMaxAdjustment (source payment)
        && isMinAdjustment (destination payment))
       || (negb (isMaxAdjustment (source payment))
           && negb (isMinAdjustment (destination payment)))).
Proof.
  unfold validPairing, cappedAtMax_to_fixed, fixed_to_flooredAtMin.
  destruct (isMaxAdjustment (source payment));
    destruct (isMinAdjustment (destination payment)); reflexivity.
Qed.

(** The optional properties and the flags leave the amount fields alone. *)
Lemma tx_fields_after_options (payment : Payment) (tx : TxJSON) :
  let tx1 := set_if_defined set_InvoiceID (invoiceID payment) tx in
  let tx2 := set_if_defined set_SourceTag (tag (source payment)) tx1 in
  let tx3 :=
    set_if_defined set_DestinationTag (tag (destination payment)) tx2 in
  let tx4 := set_if_defined set_Memos
               (option_map (map convertMemo) (memos payment)) tx3 in
  let tx5 := if is_true (noDirectStoxum payment)
             then set_Flags tx4 (Z.lor (tx_Flags tx4) NoStoxumDirect)
             else tx4 in
  let tx6 := if is_true (limitQuality payment)
             then set_Flags tx5 (Z.lor (tx_Flags tx5) LimitQuality)
             else tx5 in
  tx_Amount tx6 = tx_Amount tx
  /\ tx_SendMax tx6 = tx_SendMax tx
  /\ tx_DeliverMin tx6 = tx_DeliverMin tx
  /\ tx_Paths tx6 = tx_Paths tx
  /\ tx_Account tx6 = tx_Account tx
  /\ tx_Destination tx6 = tx_Destination tx
  /\ tx_TransactionType tx6 = tx_TransactionType tx.
Proof.
  destruct (invoiceID payment), (tag (source payment)),
    (tag (destination payment)), (memos payment),
    (is_true (noDirectStoxum payment)), (is_true (limitQuality payment));
    cbn; repeat split.
Qed.


Lemma createPaymentTransaction_address_mismatch (address' : string)
  (payment : Payment) :
  address' <> address (source payment) ->
  createPaymentTransaction address' payment
  = Throw (ValidationError msg_address).
Proof.
  intros H. unfold createPaymentTransaction, cloneDeep.
  rewrite applyAnyCounterpartyEncoding_source, encodeAdjustment_address.
  apply String.eqb_neq in H. now rewrite H.
Qed.

Lemma createPaymentTransaction_invalid_pairing (payment : Payment) :
  validPairing payment = false ->
  createPaymentTransaction (address (source payment)) payment
  = Throw (ValidationError msg_adjustment).
Proof.
  intros H. unfold createPaymentTransaction, cloneDeep.
  rewrite applyAnyCounterpartyEncoding_source,
    applyAnyCounterpartyEncoding_destination, encodeAdjustment_address,
    encodeAdjustment_isMax, encodeAdjustment_isMin.
  rewrite String.eqb_refl. cbn [negb].
  rewrite validPairing_shape in H. apply negb_false_iff in H.
  now rewrite H.
Qed.

(** What a successful compilation went through. *)
Lemma createPaymentTransaction_ok (address' : string) (payment : Payment)
  (tx : TxJSON) :
  createPaymentTransaction address' payment = Ok tx ->
  address' = address (source payment)
  /\ validPairing payment = true
  /\ exists (d : Amount) (xrp : bool),
       destinationAmountOf (applyAnyCounterpartyEncoding payment) = Some d
       /\ isXRPToXRPPayment payment = Ok xrp
       /\ deliveryAmount (applyAnyCounterpartyEncoding payment)
          = Ok (Some (if isMinAdjustment (destination payment) && negb xrp
                      then createMaximalAmount d else d))
       /\ tx_Amount tx
          = toStoxumdAmount
              (if isMinAdjustment (destination payment) && negb xrp
               then createMaximalAmount d else d)
       /\ (xrp = true ->
           tx_SendMax tx = None /\ tx_DeliverMin tx = None
           /\ tx_Paths tx = None
           /\ is_true (allowPartialPayment payment) = false).
Proof.
  intros H.
  destruct (String.eqb_spec address' (address (source payment))) as [Ha|Ha];
    [|rewrite createPaymentTransaction_address_mismatch in H by assumption;
      discriminate].
  subst address'. split; [reflexivity|].
  destruct (validPairing payment) eqn:Hv;
    [|rewrite createPaymentTransaction_invalid_pairing in H by assumption;
      discriminate].
  split; [reflexivity|].
  unfold createPaymentTransaction, cloneDeep in H.
  pose proof (encoded_isXRPToXRPPayment payment) as Ex.
  assert (Ea : address (source (applyAnyCounterpartyEncoding payment))
               = address (source payment))
    by apply encodeAdjustment_address.
  assert (Emax : isMaxAdjustment (source (applyAnyCounterpartyEncoding payment))
                 = isMaxAdjustment (source payment))
    by apply encodeAdjustment_isMax.
  assert (Emin :
    isMinAdjustment (destination (applyAnyCounterpartyEncoding payment))
    = isMinAdjustment (destination payment))
    by apply encodeAdjustment_isMin.
  assert (Ep : allowPartialPayment (applyAnyCounterpartyEncoding payment)
               = allowPartialPayment payment) by reflexivity.
  unfold deliveryAmount in *.
  set (payment' := applyAnyCounterpartyEncoding payment) in *.
  clearbody payment'.
  rewrite Ea, Emax, Emin, Ex, Ep in *. clear Ea Emax Emin Ex Ep.
  rewrite String.eqb_refl in H. cbn [negb] in H.
  rewrite validPairing_shape in Hv. apply negb_true_iff in Hv.
  rewrite Hv in H.
  destruct (isXRPToXRPPayment payment) as [xrp|e] eqn:Hx.
  2:{ destruct (isMinAdjustment (destination payment));
        cbn [bind] in H; [discriminate|].
      destruct (destinationAmountOf payment');
        cbn [bind encodeAmount deref] in H; discriminate. }
  destruct (destinationAmountOf payment') as [d|] eqn:Hd.
  2:{ destruct (isMinAdjustment (destination payment)), xrp;
        cbn [bind encodeAmount deref negb] in H; discriminate. }
  exists d, xrp. split; [reflexivity|]. split; [reflexivity|].
  split.
  { destruct (isMinAdjustment (destination payment)), xrp; reflexivity. }
  set (delivered := if isMinAdjustment (destination payment) && negb xrp
                    then createMaximalAmount d else d).
  assert (Hdel :
    (if isMinAdjustment (destination payment)
     then x <- Ok xrp ;;
          (if negb x
           then a <- deref (Some d) ;; Ok (Some (createMaximalAmount a))
           else Ok (Some d))
     else Ok (Some d)) = Ok (Some delivered)).
  { subst delivered.
    destruct (isMinAdjustment (destination payment)), xrp; reflexivity. }
  rewrite Hdel in H. cbn [bind encodeAmount deref] in H.
  match type of H with
  | context [set_if_defined set_InvoiceID _ ?tx0] =>
      pose proof (tx_fields_after_options payment' tx0) as Hf
  end.
  cbv zeta in Hf. cbn [tx_Amount tx_SendMax tx_DeliverMin tx_Paths] in Hf.
  destruct Hf as (HA & HS & HD & HP & _).
  destruct xrp; cbn [negb] in H.
  - destruct (is_true (allowPartialPayment payment)) eqn:Hp;
      [discriminate|].
    injection H as <-. split; [exact HA|]. intros _.
    repeat split; assumption.
  - split; [|discriminate].
    destruct (sourceAmountOf payment');
      cbn [bind encodeAmount deref] in H; [|discriminate].
    destruct (isMinAdjustment (destination payment));
      cbn [bind encodeAmount deref] in H;
      destruct (paths payment'); cbn [bind] in H;
      try (destruct (JSON_parse _); cbn [bind] in H; [|discriminate]);
      injection H as <-; cbn [tx_Amount set_Paths set_DeliverMin set_SendMax];
      destruct (is_true (allowPartialPayment payment));
      cbn [orb tx_Amount set_Flags]; exact HA.
Qed.


Lemma createPaymentTransaction_native_partial (payment : Payment) :
  isXRPToXRPPayment payment = Ok true ->
  validPairing payment = true ->
  is_true (allowPartialPayment payment) = true ->
  createPaymentTransaction (address (source payment)) payment
  = Throw (ValidationError msg_partial).
Proof.
  intros Hx Hv Hp.
  unfold createPaymentTransaction, cloneDeep.
  pose proof (encoded_isXRPToXRPPayment payment) as Ex.
  pose proof (encoded_destinationAmount payment) as Ed.
  assert (Ea : address (source (applyAnyCounterpartyEncoding payment))
               = address (source payment))
    by apply encodeAdjustment_address.
  assert (Emax : isMaxAdjustment (source (applyAnyCounterpartyEncoding payment))
                 = isMaxAdjustment (source payment))
    by apply encodeAdjustment_isMax.
  assert (Emin :
    isMinAdjustment (destination (applyAnyCounterpartyEncoding payment))
    = isMinAdjustment (destination payment))
    by apply encodeAdjustment_isMin.
  assert (Ep : allowPartialPayment (applyAnyCounterpartyEncoding payment)
               = allowPartialPayment payment) by reflexivity.
  unfold deliveryAmount.
  set (payment' := applyAnyCounterpartyEncoding payment) in *.
  clearbody payment'.
  rewrite Ea, Emax, Emin, Ex, Ep, Hx, Hp. clear Ea Emax Emin Ex Ep.
  rewrite String.eqb_refl. cbn [negb].
  rewrite validPairing_shape in Hv. apply negb_true_iff in Hv.
  rewrite Hv.
  rewrite isXRPToXRPPayment_resolved in Hx.
  destruct (sourceAmountOf payment); [|discriminate].
  destruct (destinationAmountOf payment); [|discriminate].
  rewrite Ed.
  destruct (isMinAdjustment (destination payment)); reflexivity.
Qed.

(** C4 (amended). Compilation succeeds only if exactly one of the two valid
    adjustment pairings holds. For every other combination it fails with a
    validation error, before producing any output and before any network
    access: the ambiguous-adjustment error when the given address is the
    address of the source, the address-mismatch error otherwise. *)
Theorem createPaymentTransaction_pairing (address' : string)
  (payment : Payment) (instructions : Instructions) :
  (forall tx,
      createPaymentTransaction address' payment = Ok tx ->
      validPairing payment = true)
  /\ (validPairing payment = false ->
      createPaymentTransaction address' payment
      = Throw (ValidationError
                 (if (address' =? address (source payment))%string
                  then msg_adjustment else msg_address))
      /\ (exists e, preparePayment address' payment instructions = Reject e)
      /\ forall c, fst (run c (preparePayment address' payment instructions))
                   = []).
Proof.
  split.
  - intros tx H. apply createPaymentTransaction_ok in H. tauto.
  - intros Hv.
    assert (Hc : createPaymentTransaction address' payment
                 = Throw (ValidationError
                            (if (address' =? address (source payment))%string
                             then msg_adjustment else msg_address))).
    { destruct (String.eqb_spec address' (address (source payment))) as [->|Ha].
      - now apply createPaymentTransaction_invalid_pairing.
      - now apply createPaymentTransaction_address_mismatch. }
    split; [exact Hc|].
    unfold preparePayment. rewrite Hc.
    destruct (validate_preparePayment address' payment instructions);
      split; eauto.
Qed.

(** C5. A payment is all-native iff the currencies of the two amounts the
    transaction is built from are both the native currency code. For an
    all-native payment, compilation fails with a validation error whenever
    partial payment is requested, and a compiled transaction has no send-max,
    no deliver-minimum and no paths, whatever else the intent holds. *)
Theorem isXRPToXRPPayment_all_native (address' : string) (payment : Payment) :
  (isXRPToXRPPayment payment = Ok true <->
   option_map currency (sourceAmountOf payment) = Some "XRP"
   /\ option_map currency (destinationAmountOf payment) = Some "XRP")
  /\ (isXRPToXRPPayment payment = Ok true ->
      (allowPartialPayment payment = Some true ->
       exists message,
         createPaymentTransaction address' payment
         = Throw (ValidationError message))
      /\ (forall tx,
             createPaymentTransaction address' payment = Ok tx ->
             tx_SendMax tx = None /\ tx_DeliverMin tx = None
             /\ tx_Paths tx = None)).
Proof.
  split.
  - rewrite isXRPToXRPPayment_resolved. unfold isNativeCurrency.
    destruct (sourceAmountOf payment) as [s|];
      destruct (destinationAmountOf payment) as [d|]; cbn;
      try (split; [discriminate | intros [? ?]; discriminate]).
    split.
    + intros H. injection H as H. apply andb_true_iff in H.
      destruct H as [Hs Hd]. apply String.eqb_eq in Hs, Hd.
      now rewrite Hs, Hd.
    + intros [Hs Hd]. injection Hs as ->. injection Hd as ->. reflexivity.
  - intros Hx. split.
    + intros Hp.
      destruct (String.eqb_spec address' (address (source payment)))
        as [->|Ha].
      * destruct (validPairing payment) eqn:Hv.
        -- exists msg_partial.
           apply createPaymentTransaction_native_partial; try assumption.
           now rewrite Hp.
        -- exists msg_adjustment.
           now apply createPaymentTransaction_invalid_pairing.
      * exists msg_address.
        now apply createPaymentTransaction_address_mismatch.
    + intros tx H. apply createPaymentTransaction_ok in H.
      destruct H as (_ & _ & d & xrp & _ & Hx' & _ & _ & Hn).
      rewrite Hx in Hx'. injection Hx' as <-.
      destruct (Hn eq_refl) as (? & ? & ? & _). tauto.
Qed.

(** C6. In every successful compilation the delivery amount, and with it the
    [Amount] of the transaction, is built from the destination's own amount
    after counterparty defaulting - its [minAmount] when it has one, its
    [amount] otherwise, with the currency and the value the intent gives: it
    is [createMaximalAmount] of that amount when the destination has a
    minimum and the payment is not all-native, and that amount itself in
    every other case. *)
Theorem createPaymentTransaction_delivery_amount (address' : string)
  (payment : Payment) (tx : TxJSON) :
  createPaymentTransaction address' payment = Ok tx ->
  let payment' := applyAnyCounterpartyEncoding payment in
  let floored := isMinAdjustment (destination payment) in
  exists (given destinationAmount : Amount) (allNative : bool),
    (if floored
     then minAmount (destination payment)
     else amount (destination payment)) = Some given
    /\ (if floored
        then minAmount (destination payment')
        else amount (destination payment')) = Some destinationAmount
    /\ currency destinationAmount = currency given
    /\ value destinationAmount = value given
    /\ isXRPToXRPPayment payment' = Ok allNative
    /\ deliveryAmount payment'
       = Ok (Some (if floored && negb allNative
                   then createMaximalAmount destinationAmount
                   else destinationAmount))
    /\ tx_Amount tx
       = toStoxumdAmount
           (if floored && negb allNative
            then createMaximalAmount destinationAmount
            else destinationAmount).
Proof.
  intros H. cbv zeta.
  apply createPaymentTransaction_ok in H.
  destruct H as (_ & _ & d & xrp & Hd & Hx & Hdel & Ha & _).
  pose proof (encoded_destinationAmount payment) as He.
  rewrite Hd in He.
  destruct (destinationAmountOf payment) as [given|] eqn:Hg; [|discriminate].
  injection He as He.
  exists given, d, xrp.
  unfold destinationAmountOf in Hg, Hd.
  rewrite applyAnyCounterpartyEncoding_destination, encodeAdjustment_isMin
    in Hd.
  rewrite applyAnyCounterpartyEncoding_destination.
  split; [exact Hg|]. split; [exact Hd|].
  split; [rewrite He; apply defaultCounterparty_currency|].
  split; [rewrite He; apply defaultCounterparty_value|].
  rewrite encoded_isXRPToXRPPayment.
  auto.
Qed.

End PaymentProperties.

(** ** Running asynchronous code *)

Section RunProperties.

Context {T : ExternalTypes}.

Lemma run_then {A B : Type} (c : Connection) (p : Promise A)
  (f : A -> Promise B) :
  run c (then_ p f)
  = match run c p with
    | (calls, Ok a) =>
        ((calls ++ fst (run c (f a)))%list, snd (run c (f a)))
    | (calls, Throw e) => (calls, Throw e)
    end.
Proof.
  induction p as [a|e|r k IH|a k IH|t i k IH]; cbn.
  - now destruct (run c (f a)).
  - reflexivity.
  - destruct (answer_request c r) as [x|e]; [|reflexivity].
    rewrite IH. now destruct (run c (k x)) as [calls [a|e]].
  - destruct (answer_balance c a) as [x|e]; [|reflexivity].
    rewrite IH. now destruct (run c (k x)) as [calls [y|e]].
  - destruct (answer_prepare c t i) as [x|e]; [|reflexivity].
    rewrite IH. now destruct (run c (k x)) as [calls [y|e]].
Qed.

Lemma run_settle {A : Type} (c : Connection) (r : result A) :
  run c (settle r) = ([], r).
Proof. now destruct r. Qed.

Lemma run_settled {A : Type} (c : Connection) (p : Promise A) :
  settled p = true -> fst (run c p) = [].
Proof. destruct p; cbn; (reflexivity || discriminate). Qed.

End RunProperties.

(** ** Path finding *)

Section PathFindProperties.

Context {T : ExternalTypes} {X : Externals T}.

Lemma includes_In (l : list string) (v : string) :
  includes (Some l) v = true <-> In v l.
Proof.
  cbn. rewrite existsb_exists. split.
  - intros (x & Hin & Heq). apply String.eqb_eq in Heq. now subst.
  - intros Hin. exists v. split; [assumption | apply String.eqb_refl].
Qed.

Lemma includes_accepts (paths : StoxumdPathsResponse) (v : string) :
  includes (destination_currencies paths) v = true <-> accepts paths v.
Proof.
  unfold accepts. destruct (destination_currencies paths) as [l|].
  - rewrite includes_In. split.
    + intros H. now exists l.
    + intros (l' & Heq & Hin). now injection Heq as ->.
  - split; [discriminate | intros (l' & Heq & _); discriminate].
Qed.

(** The request as a function of the query, when it can be built. *)
Lemma pathFindRequest_source_currencies (pathfind : PathFind)
  (request : PathFindRequest) :
  pathFindRequest pathfind = Ok request ->
  nonempty (source_currencies request)
  = nonempty (pf_source_currencies (pf_source pathfind)).
Proof.
  unfold pathFindRequest. intros H.
  match type of H with
  | (x <- ?m ;; _) = _ => destruct m as [sm|e]; [|discriminate]
  end.
  cbn in H. injection H as <-. cbn.
  destruct (pf_source_currencies (pf_source pathfind)) as [[|c cs]|];
    reflexivity.
Qed.

Lemma filterSourceFundsLowPaths_header (pathfind : PathFind)
  (paths : StoxumdPathsResponse) :
  let paths' := filterSourceFundsLowPaths pathfind paths in
  destination_currencies paths' = destination_currencies paths
  /\ rsp_source_currencies paths' = rsp_source_currencies paths
  /\ rsp_destination_amount paths' = rsp_destination_amount paths.
Proof.
  unfold filterSourceFundsLowPaths.
  destruct (defined (pf_source_amount (pf_source pathfind))
            && negb (defined (lax_value (pf_destination_amount
                                           (pf_destination pathfind)))));
    [destruct (alternatives paths)|]; cbn; auto.
Qed.

Lemma conditionallyAddDirectXRPPath_header (c : Connection)
  (address' : string) (paths paths' : StoxumdPathsResponse)
  (calls : list Call) :
  run c (conditionallyAddDirectXRPPath address' paths) = (calls, Ok paths') ->
  destination_currencies paths' = destination_currencies paths
  /\ rsp_source_currencies paths' = rsp_source_currencies paths
  /\ rsp_destination_amount paths' = rsp_destination_amount paths.
Proof.
  unfold conditionallyAddDirectXRPPath.
  destruct (isStoxumdIOUAmount (rsp_destination_amount paths)
            || negb (includes (destination_currencies paths) "XRP")); cbn.
  - intros H. injection H as _ <-. auto.
  - destruct (answer_balance c address') as [balance|e]; [|discriminate].
    rewrite run_settle. unfold addDirectXrpPath.
    destruct (BigNumber_gte balance (rsp_destination_amount paths)).
    + destruct (alternatives paths) as [alts|]; cbn; [|discriminate].
      intros H. injection H as _ <-. cbn. auto.
    + intros H. injection H as _ <-. auto.
Qed.

(** The response that reaches [formatResponse] carries the source
    currencies of the query and the accepted currencies of the answer. *)
Lemma processedResponse_source_currencies (c : Connection)
  (pathfind : PathFind) (calls : list Call)
  (processed : StoxumdPathsResponse) :
  run c (processedResponse pathfind) = (calls, Ok processed) ->
  nonempty (rsp_source_currencies processed)
  = nonempty (pf_source_currencies (pf_source pathfind)).
Proof.
  unfold processedResponse. rewrite !run_then.
  unfold requestPathFind.
  destruct (pathFindRequest pathfind) as [request|e] eqn:Hr; cbn;
    [|discriminate].
  destruct (answer_request c request) as [raw|e]; [|discriminate].
  cbn [app fst snd].
  destruct (run c (conditionallyAddDirectXRPPath
                     (pf_source_address (pf_source pathfind))
                     (addParams request raw))) as [calls1 [paths1|e]] eqn:Hc;
    cbn [fst snd]; [|discriminate].
  intros H. injection H as _ <-.
  apply conditionallyAddDirectXRPPath_header in Hc.
  destruct Hc as (_ & Hs & _).
  destruct (filterSourceFundsLowPaths_header pathfind paths1) as (_ & Hs' & _).
  rewrite Hs', Hs. cbn.
  now apply pathFindRequest_source_currencies.
Qed.


(** *** Request builder *)

(** C9. When the query fixes a source amount: if the value of the
    destination amount is set as well, the builder throws a validation error
    and nothing is sent on the connection; otherwise the request is built and
    its send-max is the encoded source amount, whose issuer, when the encoded
    amount is an object without issuer, is the source address. *)
Theorem requestPathFind_send_max (pathfind : PathFind) (fixed : Amount) :
  pf_source_amount (pf_source pathfind) = Some fixed ->
  let dst := pf_destination_amount (pf_destination pathfind) in
  let own := pf_source_address (pf_source pathfind) in
  (forall v,
      lax_value dst = Some v ->
      requestPathFind pathfind = Reject (ValidationError msg_both_amounts)
      /\ forall c, fst (run c (getPaths pathfind)) = [])
  /\ (lax_value dst = None ->
      exists request,
        pathFindRequest pathfind = Ok request
        /\ requestPathFind pathfind
           = connection_request request
               (fun paths => Resolve (addParams request paths))
        /\ (forall s,
               toStoxumdAmount fixed = AmountString s ->
               send_max request = Some (AmountString s))
        /\ (forall o,
               toStoxumdAmount fixed = AmountObject o ->
               iou_issuer o = None \/ iou_issuer o = Some "" ->
               send_max request
               = Some (AmountObject
                         {| iou_currency := iou_currency o;
                            iou_issuer := Some own;
                            iou_value := iou_value o |}))
        /\ (forall o i,
               toStoxumdAmount fixed = AmountObject o ->
               iou_issuer o = Some i -> i <> "" ->
               send_max request = Some (AmountObject o))).
Proof.
  intros Hs. cbv zeta. split.
  - intros v Hv.
    assert (Hr : pathFindRequest pathfind
                 = Throw (ValidationError msg_both_amounts)).
    { unfold pathFindRequest. rewrite Hs, Hv. reflexivity. }
    split.
    + unfold requestPathFind. now rewrite Hr.
    + intros c. unfold getPaths, processedResponse, requestPathFind.
      rewrite Hr.
      destruct (validate_getPaths pathfind); reflexivity.
  - intros Hv. unfold requestPathFind, pathFindRequest.
    rewrite Hs, Hv. cbn [defined].
    destruct (toStoxumdAmount fixed) as [s|o] eqn:He.
    + eexists. split; [reflexivity|]. split; [reflexivity|].
      cbn [bind send_max].
      split; [intros s' H; now injection H as <-|].
      split; intros; discriminate.
    + destruct (iou_issuer o) as [i|] eqn:Hi; cbn [falsy].
      * destruct (String.eqb_spec i "") as [->|Hne].
        -- eexists. split; [reflexivity|]. split; [reflexivity|].
           cbn [bind send_max].
           split; [intros; discriminate|].
           split.
           ++ intros o' H _. now injection H as <-.
           ++ intros o' i' H Hi' Hn. injection H as <-.
              rewrite Hi in Hi'. injection Hi' as <-. contradiction.
        -- eexists. split; [reflexivity|]. split; [reflexivity|].
           cbn [bind send_max].
           split; [intros; discriminate|].
           split.
           ++ intros o' H [Hn|Hn]; injection H as <-; rewrite Hi in Hn;
                [discriminate | injection Hn as ->; contradiction].
           ++ intros o' i' H _ _. now injection H as <-.
      * eexists. split; [reflexivity|]. split; [reflexivity|].
        cbn [bind send_max].
        split; [intros; discriminate|].
        split.
        -- intros o' H _. now injection H as <-.
        -- intros o' i' H Hi' _. injection H as <-.
           rewrite Hi in Hi'. discriminate.
Qed.

(** *** Direct-route injection *)

(** C2 (amended). When the destination amount is an issued-currency amount,
    or the destination does not list the native currency, the response is
    returned as it is and the balance is not looked up. When the destination
    amount is a native amount (a string) and the destination lists the native
    currency, the balance is looked up once, and exactly one zero-hop
    alternative - source amount the destination amount, computed path
    empty - is put in front of the alternatives iff the balance is greater
    than or equal to the destination amount. *)
Theorem conditionallyAddDirectXRPPath_injection (address' : string)
  (paths : StoxumdPathsResponse) :
  (isStoxumdIOUAmount (rsp_destination_amount paths) = true
   \/ ~ accepts paths "XRP" ->
   conditionallyAddDirectXRPPath address' paths = Resolve paths
   /\ forall c,
       run c (conditionallyAddDirectXRPPath address' paths) = ([], Ok paths))
  /\ (forall drops alts,
         rsp_destination_amount paths = AmountString drops ->
         accepts paths "XRP" ->
         alternatives paths = Some alts ->
         exists k,
           conditionallyAddDirectXRPPath address' paths
           = getXRPBalance address' k
           /\ forall xrpBalance,
               k xrpBalance
               = Resolve
                   (if BigNumber_gte xrpBalance (AmountString drops)
                    then set_alternatives paths
                           ({| paths_computed := [];
                               source_amount := Some (AmountString drops) |}
                            :: alts)
                    else paths)).
Proof.
  unfold conditionallyAddDirectXRPPath. split.
  - intros [H|H].
    + rewrite H. now split.
    + rewrite <- includes_accepts in H. apply not_true_is_false in H.
      rewrite H, orb_true_r. now split.
  - intros drops alts Hd Ha Hl.
    apply includes_accepts in Ha. rewrite Ha, Hd. cbn.
    eexists. split; [reflexivity|].
    intros xrpBalance. cbn beta. unfold addDirectXrpPath.
    rewrite Hd, Hl.
    now destruct (BigNumber_gte xrpBalance (AmountString drops)).
Qed.

(** *** Low-funds filtering *)

Lemma filterSourceFundsLowPaths_applies (pathfind : PathFind)
  (paths : StoxumdPathsResponse) (fixed : Amount) (alts : list Alternative) :
  pf_source_amount (pf_source pathfind) = Some fixed ->
  lax_value (pf_destination_amount (pf_destination pathfind)) = None ->
  alternatives paths = Some alts ->
  alternatives (filterSourceFundsLowPaths pathfind paths)
  = Some (filter (sourceFundsMatch pathfind) alts).
Proof.
  intros Hs Hv Ha. unfold filterSourceFundsLowPaths.
  now rewrite Hs, Hv, Ha.
Qed.

(** When the destination value is given, or no source amount is fixed, the
    filter returns the response it was given. *)
Lemma filterSourceFundsLowPaths_noop (pathfind : PathFind)
  (paths : StoxumdPathsResponse) :
  lax_value (pf_destination_amount (pf_destination pathfind)) <> None
  \/ pf_source_amount (pf_source pathfind) = None ->
  filterSourceFundsLowPaths pathfind paths = paths.
Proof.
  unfold filterSourceFundsLowPaths. intros [H|H].
  - destruct (lax_value _); [|contradiction].
    cbn. now rewrite andb_false_r.
  - now rewrite H.
Qed.

(** Among the alternatives whose source amount is an object, the filter
    keeps those whose value equals the fixed source amount. *)
Lemma sourceFundsMatch_object (pathfind : PathFind) (fixed : Amount)
  (alt : Alternative) (o : IssuedAmount) :
  pf_source_amount (pf_source pathfind) = Some fixed ->
  source_amount alt = Some (AmountObject o) ->
  sourceFundsMatch pathfind alt = BigNumber_eq (iou_value o) (value fixed).
Proof.
  intros Hs Ha. unfold sourceFundsMatch. now rewrite Hs, Ha.
Qed.

(** C10. When the query fixes a source amount and leaves the value of the
    destination amount unset, every alternative that is kept has an object as
    source amount: every alternative whose source amount is absent or is a
    plain string is discarded, whatever number the string holds. *)
Theorem filterSourceFundsLowPaths_drops_strings (pathfind : PathFind)
  (paths : StoxumdPathsResponse) (fixed : Amount) (alts : list Alternative) :
  pf_source_amount (pf_source pathfind) = Some fixed ->
  lax_value (pf_destination_amount (pf_destination pathfind)) = None ->
  alternatives paths = Some alts ->
  exists kept,
    alternatives (filterSourceFundsLowPaths pathfind paths) = Some kept
    /\ (forall alt,
           In alt kept ->
           In alt alts /\ exists o, source_amount alt = Some (AmountObject o))
    /\ (forall alt,
           In alt alts ->
           source_amount alt = None
           \/ (exists s, source_amount alt = Some (AmountString s)) ->
           ~ In alt kept).
Proof.
  intros Hs Hv Ha.
  exists (filter (sourceFundsMatch pathfind) alts).
  split; [now apply (filterSourceFundsLowPaths_applies _ _ fixed)|].
  assert (Hobj : forall alt,
             sourceFundsMatch pathfind alt = true ->
             exists o, source_amount alt = Some (AmountObject o)).
  { intros alt. unfold sourceFundsMatch.
    destruct (source_amount alt) as [[s|o]|]; cbn.
    - now rewrite andb_false_r.
    - intros _. now exists o.
    - discriminate. }
  split.
  - intros alt Hin. apply filter_In in Hin. destruct Hin as [Hin Hm].
    split; [assumption | now apply Hobj].
  - intros alt _ Hstr Hin. apply filter_In in Hin.
    destruct Hin as [_ Hm]. apply Hobj in Hm. destruct Hm as [o Ho].
    destruct Hstr as [Hn|[s Hstr]]; rewrite Ho in *; discriminate.
Qed.


(** *** Failure diagnosis *)

Lemma refuses_includes (paths : StoxumdPathsResponse) (wanted : string) :
  refuses paths wanted
  <-> exists accepted,
        destination_currencies paths = Some accepted
        /\ includes (Some accepted) wanted = false.
Proof.
  unfold refuses. split; intros (l & Hl & H); exists l; split; auto.
  - apply not_true_is_false. now rewrite includes_In.
  - rewrite <- includes_In. now rewrite H.
Qed.

(** [formatResponse] on a response without alternatives. *)
Lemma formatResponse_diagnosis (pathfind : PathFind)
  (paths : StoxumdPathsResponse) :
  nonempty (alternatives paths) = false ->
  let wanted := lax_currency (pf_destination_amount
                                (pf_destination pathfind)) in
  (forall accepted,
      destination_currencies paths = Some accepted ->
      ~ In wanted accepted ->
      formatResponse pathfind paths
      = Throw (NotFoundError (msg_not_accepted wanted accepted)))
  /\ (~ refuses paths wanted ->
      formatResponse pathfind paths
      = Throw (NotFoundError
                 (if nonempty (rsp_source_currencies paths)
                  then msg_liquidity else msg_funds))).
Proof.
  intros Hn. cbv zeta. unfold formatResponse. rewrite Hn. split.
  - intros accepted Hl Hnot. rewrite Hl.
    rewrite <- includes_In in Hnot. apply not_true_is_false in Hnot.
    now rewrite Hnot.
  - intros Hr. rewrite refuses_includes in Hr.
    destruct (destination_currencies paths) as [l|] eqn:Hl.
    + destruct (includes (Some l) _) eqn:Hi; cbn [negb].
      * now destruct (nonempty (rsp_source_currencies paths)).
      * exfalso. apply Hr. now exists l.
    + now destruct (nonempty (rsp_source_currencies paths)).
Qed.

(** The diagnosis of a query whose processed response has no alternative,
    by the names of the three messages. *)
Lemma getPaths_diagnosis (c : Connection) (pathfind : PathFind)
  (calls : list Call) (processed : StoxumdPathsResponse) (u : unit) :
  validate_getPaths pathfind = Ok u ->
  run c (processedResponse pathfind) = (calls, Ok processed) ->
  nonempty (alternatives processed) = false ->
  let wanted := lax_currency (pf_destination_amount
                                (pf_destination pathfind)) in
  (forall accepted,
      destination_currencies processed = Some accepted ->
      ~ In wanted accepted ->
      run c (getPaths pathfind)
      = (calls, Throw (NotFoundError (msg_not_accepted wanted accepted))))
  /\ (~ refuses processed wanted ->
      nonempty (pf_source_currencies (pf_source pathfind)) = true ->
      run c (getPaths pathfind) = (calls, Throw (NotFoundError msg_liquidity)))
  /\ (~ refuses processed wanted ->
      nonempty (pf_source_currencies (pf_source pathfind)) = false ->
      run c (getPaths pathfind) = (calls, Throw (NotFoundError msg_funds)))
  /\ (exists message,
        snd (run c (getPaths pathfind)) = Throw (NotFoundError message)).
Proof.
  intros Hv Hrun Hn. cbv zeta.
  assert (Hg : run c (getPaths pathfind)
               = (calls, formatResponse pathfind processed)).
  { unfold getPaths. rewrite Hv, run_then, Hrun, run_settle. cbn.
    now rewrite app_nil_r. }
  pose proof (processedResponse_source_currencies _ _ _ _ Hrun) as Hsc.
  destruct (formatResponse_diagnosis pathfind processed Hn) as [Ha Hb].
  cbv zeta in Ha, Hb. rewrite Hsc in Hb. rewrite Hg.
  split; [intros accepted Hl Hnot; now rewrite (Ha accepted)|].
  split; [intros Hr Hs; rewrite (Hb Hr), Hs; reflexivity|].
  split; [intros Hr Hs; rewrite (Hb Hr), Hs; reflexivity|].
  cbn [snd].
  destruct (destination_currencies processed) as [l|] eqn:Hl.
  - destruct (includes (Some l)
                (lax_currency (pf_destination_amount
                                 (pf_destination pathfind)))) eqn:Hi.
    + rewrite Hb; [eauto|].
      intros (l' & Hl' & Hnot). rewrite Hl in Hl'. injection Hl' as <-.
      apply Hnot. now apply includes_In.
    + rewrite (Ha l eq_refl); [eauto|].
      rewrite <- includes_In. now rewrite Hi.
  - rewrite Hb; [eauto|]. intros (l' & Hl' & _). rewrite Hl in Hl'.
    discriminate.
Qed.

(** C3. When the response that reaches the last stage has no alternative,
    the query fails with a not-found error, diagnosed in this order. If the
    destination's accepted currencies do not contain the requested currency,
    the error says that the destination does not accept the requested
    currency and lists, separated by commas, the currencies it accepts.
    Otherwise, if the query gave one or more source currencies, the error
    asks for funds in one of the specified source currencies and points at
    the liquidity of the network. Otherwise the error asks for funds of the
    source account. The three texts are pairwise different, and in none of
    these cases is a route set returned. *)
Theorem getPaths_not_found (c : Connection) (pathfind : PathFind)
  (calls : list Call) (processed : StoxumdPathsResponse) (u : unit) :
  validate_getPaths pathfind = Ok u ->
  run c (processedResponse pathfind) = (calls, Ok processed) ->
  nonempty (alternatives processed) = false ->
  let wanted := lax_currency (pf_destination_amount
                                (pf_destination pathfind)) in
  let not_accepted (accepted : list string) :=
    "No paths found. The destination_account does not accept "
    ++ wanted ++ ", they only accept: " ++ String.concat ", " accepted in
  let liquidity :=
    "No paths found. Please ensure that the source_account has sufficient "
    ++ "funds to execute the payment in one of the specified "
    ++ "source_currencies. If it does there may be insufficient liquidity "
    ++ "in the network to execute this payment right now" in
  let funds :=
    "No paths found. Please ensure that the source_account has sufficient "
    ++ "funds to execute the payment. If it does there may be insufficient "
    ++ "liquidity in the network to execute this payment right now" in
  (forall accepted,
      destination_currencies processed = Some accepted ->
      ~ In wanted accepted ->
      run c (getPaths pathfind)
      = (calls, Throw (NotFoundError (not_accepted accepted))))
  /\ (~ refuses processed wanted ->
      nonempty (pf_source_currencies (pf_source pathfind)) = true ->
      run c (getPaths pathfind) = (calls, Throw (NotFoundError liquidity)))
  /\ (~ refuses processed wanted ->
      nonempty (pf_source_currencies (pf_source pathfind)) = false ->
      run c (getPaths pathfind) = (calls, Throw (NotFoundError funds)))
  /\ (exists message,
        snd (run c (getPaths pathfind)) = Throw (NotFoundError message))
  /\ liquidity <> funds
  /\ (forall accepted,
         not_accepted accepted <> liquidity
         /\ not_accepted accepted <> funds).
Proof.
  intros Hv Hrun Hn. cbv zeta.
  destruct (getPaths_diagnosis c pathfind calls processed u Hv Hrun Hn)
    as (Ha & Hb & Hc & He).
  split; [exact Ha|]. split; [exact Hb|]. split; [exact Hc|].
  split; [exact He|].
  split.
  - intros H. apply (f_equal (String.get 97)) in H. vm_compute in H.
    discriminate H.
  - intros accepted.
    split; intros H; apply (f_equal (String.get 16)) in H; cbn in H;
      discriminate H.
Qed.

End PathFindProperties.

(** * Further properties of the payment compiler *)

Section PaymentFurther.

Context {T : ExternalTypes} {X : Externals T}.

Lemma tx_options_filled (payment : Payment) (ty ac de : string)
  (am : StoxumdAmount) (fl : Z) :
  set_if_defined set_Memos (option_map (map convertMemo) (memos payment))
    (set_if_defined set_DestinationTag (tag (destination payment))
       (set_if_defined set_SourceTag (tag (source payment))
          (set_if_defined set_InvoiceID (invoiceID payment)
             (mkTx ty ac de am fl None None None None None None None))))
  = mkTx ty ac de am fl (invoiceID payment) (tag (source payment))
      (tag (destination payment))
      (option_map (map convertMemo) (memos payment)) None None None.
Proof.
  destruct (invoiceID payment), (tag (source payment)),
    (tag (destination payment)), (memos payment); reflexivity.
Qed.

(** The compiler in closed form, for an intent that passes the address and
    the shape checks and has its two amounts. *)
Lemma createPaymentTransaction_closed_form (payment : Payment)
  (s d : Amount) :
  validPairing payment = true ->
  sourceAmountOf payment = Some s ->
  destinationAmountOf payment = Some d ->
  createPaymentTransaction (address (source payment)) payment
  = if isNativeCurrency s && isNativeCurrency d
    then
      if is_true (allowPartialPayment payment)
      then Throw (ValidationError msg_partial)
      else Ok (paymentTransaction payment s d)
    else
      match paths payment with
      | None => Ok (paymentTransaction payment s d)
      | Some text =>
          parsed <- JSON_parse text ;;
          Ok (set_Paths (paymentTransaction payment s d) parsed)
      end.
Proof.
  intros Hv Hs Hd.
  unfold createPaymentTransaction, cloneDeep.
  pose proof (encoded_isXRPToXRPPayment payment) as Ex.
  pose proof (encoded_destinationAmount payment) as Ed.
  pose proof (encoded_sourceAmount payment) as Es.
  assert (Ea : address (source (applyAnyCounterpartyEncoding payment))
               = address (source payment))
    by apply encodeAdjustment_address.
  assert (Ea' : address (destination (applyAnyCounterpartyEncoding payment))
                = address (destination payment))
    by apply encodeAdjustment_address.
  assert (Et : tag (source (applyAnyCounterpartyEncoding payment))
               = tag (source payment))
    by apply encodeAdjustment_tag.
  assert (Et' : tag (destination (applyAnyCounterpartyEncoding payment))
                = tag (destination payment))
    by apply encodeAdjustment_tag.
  assert (Emax : isMaxAdjustment (source (applyAnyCounterpartyEncoding payment))
                 = isMaxAdjustment (source payment))
    by apply encodeAdjustment_isMax.
  assert (Emin :
    isMinAdjustment (destination (applyAnyCounterpartyEncoding payment))
    = isMinAdjustment (destination payment))
    by apply encodeAdjustment_isMin.
  assert (Ep : allowPartialPayment (applyAnyCounterpartyEncoding payment)
               = allowPartialPayment payment) by reflexivity.
  assert (Ei : invoiceID (applyAnyCounterpartyEncoding payment)
               = invoiceID payment) by reflexivity.
  assert (Em : memos (applyAnyCounterpartyEncoding payment)
               = memos payment) by reflexivity.
  assert (En : noDirectStoxum (applyAnyCounterpartyEncoding payment)
               = noDirectStoxum payment) by reflexivity.
  assert (El : limitQuality (applyAnyCounterpartyEncoding payment)
               = limitQuality payment) by reflexivity.
  assert (Eq : paths (applyAnyCounterpartyEncoding payment)
               = paths payment) by reflexivity.
  unfold deliveryAmount.
  set (payment' := applyAnyCounterpartyEncoding payment) in *.
  pose proof (tx_options_filled payment') as Hopt.
  rewrite Et, Et', Ei, Em in Hopt.
  clearbody payment'.
  rewrite Ea, Ea', Et, Et', Ei, Em, Emax, Emin, Ex, Ep, En, El, Eq, Es, Ed,
    Hs, Hd.
  clear Ea Ea' Et Et' Emax Emin Ex Ep Ei Em En El Eq Es Ed.
  rewrite String.eqb_refl. cbn [negb].
  rewrite validPairing_shape in Hv. apply negb_true_iff in Hv.
  rewrite Hv.
  rewrite isXRPToXRPPayment_resolved, Hs, Hd.
  cbn [option_map bind deref encodeAmount].
  unfold paymentTransaction.
  set (s' := defaultCounterparty (address (source payment)) s).
  set (d' := defaultCounterparty (address (destination payment)) d).
  set (xrp := isNativeCurrency s && isNativeCurrency d).
  assert (Hdel :
    (if isMinAdjustment (destination payment)
     then if negb xrp
          then Ok (Some (createMaximalAmount d'))
          else Ok (Some d')
     else Ok (Some d'))
    = Ok (Some (if isMinAdjustment (destination payment) && negb xrp
                then createMaximalAmount d' else d'))).
  { destruct (isMinAdjustment (destination payment)), xrp; reflexivity. }
  rewrite Hdel. cbn [bind deref encodeAmount]. rewrite Hopt.
  cbn [tx_Flags set_Flags tx_TransactionType tx_Account tx_Destination
       tx_Amount tx_InvoiceID tx_SourceTag tx_DestinationTag tx_Memos
       tx_SendMax tx_DeliverMin tx_Paths].
  unfold flag.
  destruct xrp; cbn [negb andb].
  - destruct (is_true (allowPartialPayment payment)); [reflexivity|].
    destruct (is_true (noDirectStoxum payment)),
      (is_true (limitQuality payment));
      cbn; rewrite ?andb_false_r, ?Z.lor_0_r; reflexivity.
  - destruct (is_true (noDirectStoxum payment)),
      (is_true (limitQuality payment)),
      (is_true (allowPartialPayment payment)),
      (isMinAdjustment (destination payment)),
      (paths payment) as [text|];
      cbn; try destruct (JSON_parse text); cbn;
      rewrite ?Z.lor_0_r; reflexivity.
Qed.

Lemma createPaymentTransaction_ok_amounts (address' : string)
  (payment : Payment) (tx : TxJSON) :
  createPaymentTransaction address' payment = Ok tx ->
  address' = address (source payment)
  /\ validPairing payment = true
  /\ exists s d,
       sourceAmountOf payment = Some s
       /\ destinationAmountOf payment = Some d
       /\ isXRPToXRPPayment payment
          = Ok (isNativeCurrency s && isNativeCurrency d).
Proof.
  intros H. apply createPaymentTransaction_ok in H.
  destruct H as (Ha & Hv & _ & xrp & _ & Hx & _).
  split; [exact Ha|]. split; [exact Hv|].
  rewrite isXRPToXRPPayment_resolved in *.
  destruct (sourceAmountOf payment) as [s|]; [|discriminate].
  destruct (destinationAmountOf payment) as [d|]; [|discriminate].
  exists s, d. auto.
Qed.

(** X1. With its two amounts present, an intent compiles iff the address is
    the source's, exactly one pairing holds, an all-native payment does not
    ask for partial delivery, and the paths of a payment that is not
    all-native are well-formed JSON. *)
Theorem createPaymentTransaction_succeeds_iff (address' : string)
  (payment : Payment) (s d : Amount) :
  sourceAmountOf payment = Some s ->
  destinationAmountOf payment = Some d ->
  let allNative := isNativeCurrency s && isNativeCurrency d in
  (exists tx, createPaymentTransaction address' payment = Ok tx)
  <-> address' = address (source payment)
      /\ validPairing payment = true
      /\ (allNative = true -> allowPartialPayment payment <> Some true)
      /\ (allNative = false ->
          forall text, paths payment = Some text ->
                       exists parsed, JSON_parse text = Ok parsed).
Proof.
  intros Hs Hd. cbv zeta. split.
  - intros [tx H].
    destruct (createPaymentTransaction_ok_amounts _ _ _ H) as (-> & Hv & _).
    rewrite (createPaymentTransaction_closed_form payment s d Hv Hs Hd) in H.
    split; [reflexivity|]. split; [assumption|].
    destruct (isNativeCurrency s && isNativeCurrency d).
    + split; [|discriminate]. intros _ Hp. rewrite Hp in H. discriminate.
    + split; [discriminate|]. intros _ text Ht. rewrite Ht in H.
      destruct (JSON_parse text) as [parsed|e]; [eauto|discriminate].
  - intros (-> & Hv & Hn & Hp).
    rewrite (createPaymentTransaction_closed_form payment s d Hv Hs Hd).
    destruct (isNativeCurrency s && isNativeCurrency d).
    + destruct (allowPartialPayment payment) as [[|]|]; cbn; eauto.
      now destruct (Hn eq_refl).
    + destruct (paths payment) as [text|]; [|eauto].
      destruct (Hp eq_refl text eq_refl) as [parsed ->]. cbn. eauto.
Qed.

(** X3. The flags of a compiled payment are the union of the bits asked for:
    no-direct, limit-quality, and partial-payment; the last is set, for a
    payment that is not all-native, when partial delivery is allowed or the
    destination has a minimum, and never for an all-native payment. *)
Theorem createPaymentTransaction_flags (address' : string)
  (payment : Payment) (tx : TxJSON) (allNative : bool) :
  createPaymentTransaction address' payment = Ok tx ->
  isXRPToXRPPayment payment = Ok allNative ->
  tx_Flags tx
  = Z.lor
      (Z.lor (flag (is_true (noDirectStoxum payment)) NoStoxumDirect)
             (flag (is_true (limitQuality payment)) LimitQuality))
      (flag (negb allNative
             && (is_true (allowPartialPayment payment)
                 || isMinAdjustment (destination payment)))
            PartialPayment).
Proof.
  intros H Hx.
  destruct (createPaymentTransaction_ok_amounts _ _ _ H)
    as (-> & Hv & s & d & Hs & Hd & Hn).
  rewrite Hx in Hn. injection Hn as ->.
  rewrite (createPaymentTransaction_closed_form payment s d Hv Hs Hd) in H.
  destruct (isNativeCurrency s && isNativeCurrency d) eqn:Hn.
  - destruct (is_true (allowPartialPayment payment)); [discriminate|].
    injection H as <-. cbn. now rewrite Hn.
  - destruct (paths payment) as [text|].
    + destruct (JSON_parse text); [|discriminate].
      injection H as <-. cbn. now rewrite Hn.
    + injection H as <-. cbn. now rewrite Hn.
Qed.

(** X4. A compiled payment names the given address as account and the
    destination's address as destination, takes the source tag from the
    source and the destination tag from the destination, and carries the
    invoice id and the converted memos exactly when the intent has them. *)
Theorem createPaymentTransaction_envelope (address' : string)
  (payment : Payment) (tx : TxJSON) :
  createPaymentTransaction address' payment = Ok tx ->
  tx_TransactionType tx = "Payment"
  /\ tx_Account tx = address'
  /\ tx_Destination tx = address (destination payment)
  /\ tx_SourceTag tx = tag (source payment)
  /\ tx_DestinationTag tx = tag (destination payment)
  /\ tx_InvoiceID tx = invoiceID payment
  /\ tx_Memos tx = option_map (map convertMemo) (memos payment).
Proof.
  intros H.
  destruct (createPaymentTransaction_ok_amounts _ _ _ H)
    as (-> & Hv & s & d & Hs & Hd & _).
  rewrite (createPaymentTransaction_closed_form payment s d Hv Hs Hd) in H.
  destruct (isNativeCurrency s && isNativeCurrency d).
  - destruct (is_true (allowPartialPayment payment)); [discriminate|].
    injection H as <-. cbn. repeat split.
  - destruct (paths payment) as [text|].
    + destruct (JSON_parse text); [|discriminate].
      injection H as <-. cbn. repeat split.
    + injection H as <-. cbn. repeat split.
Qed.

(** X5. The paths of an all-native payment are never read: whatever text
    the intent carries as paths, well-formed or not, the compiler does what
    it does without it. *)
Theorem createPaymentTransaction_native_ignores_paths (address' : string)
  (payment : Payment) (text : option string) :
  isXRPToXRPPayment payment = Ok true ->
  createPaymentTransaction address' (with_paths payment text)
  = createPaymentTransaction address' payment.
Proof.
  intros Hx.
  destruct (String.eqb_spec address' (address (source payment))) as [->|Ha].
  2:{ rewrite !createPaymentTransaction_address_mismatch; auto. }
  destruct (validPairing payment) eqn:Hv.
  2:{ rewrite (createPaymentTransaction_invalid_pairing payment Hv).
      now apply (createPaymentTransaction_invalid_pairing
                   (with_paths payment text)). }
  rewrite isXRPToXRPPayment_resolved in Hx.
  destruct (sourceAmountOf payment) as [s|] eqn:Hs; [|discriminate].
  destruct (destinationAmountOf payment) as [d|] eqn:Hd; [|discriminate].
  injection Hx as Hx.
  rewrite (createPaymentTransaction_closed_form payment s d Hv Hs Hd).
  change (address (source payment))
    with (address (source (with_paths payment text))).
  rewrite (createPaymentTransaction_closed_form (with_paths payment text) s d
             Hv Hs Hd).
  now rewrite Hx.
Qed.

(** X6. For an intent that passes the address and the shape checks and is
    not all-native, paths that are not well-formed JSON make the compiler
    fail with the parser's own error. *)
Theorem createPaymentTransaction_malformed_paths (payment : Payment)
  (text : string) (e : Error) :
  validPairing payment = true ->
  isXRPToXRPPayment payment = Ok false ->
  paths payment = Some text ->
  JSON_parse text = Throw e ->
  createPaymentTransaction (address (source payment)) payment = Throw e.
Proof.
  intros Hv Hx Ht He.
  rewrite isXRPToXRPPayment_resolved in Hx.
  destruct (sourceAmountOf payment) as [s|] eqn:Hs; [|discriminate].
  destruct (destinationAmountOf payment) as [d|] eqn:Hd; [|discriminate].
  injection Hx as Hx.
  rewrite (createPaymentTransaction_closed_form payment s d Hv Hs Hd).
  now rewrite Hx, Ht, He.
Qed.

(** X7. [preparePayment] rejects with the validator's error, without
    compiling and without any call, when validation fails; when validation
    and compilation succeed it makes exactly one call, the preparation of the
    compiled transaction under the given instructions, and settles as that
    call does. *)
Theorem preparePayment_calls (c : Connection) (address' : string)
  (payment : Payment) (instructions : Instructions) :
  (forall e,
      validate_preparePayment address' payment instructions = Throw e ->
      run c (preparePayment address' payment instructions) = ([], Throw e))
  /\ (forall u tx,
         validate_preparePayment address' payment instructions = Ok u ->
         createPaymentTransaction address' payment = Ok tx ->
         run c (preparePayment address' payment instructions)
         = ([CallPrepare tx], answer_prepare c tx instructions)).
Proof.
  unfold preparePayment. split.
  - intros e ->. reflexivity.
  - intros u tx -> ->. cbn.
    now destruct (answer_prepare c tx instructions).
Qed.

(** X8. Counterparty defaulting is idempotent: a second pass over a
    defaulted intent changes nothing. *)
Theorem applyAnyCounterpartyEncoding_idempotent (payment : Payment) :
  applyAnyCounterpartyEncoding (applyAnyCounterpartyEncoding payment)
  = applyAnyCounterpartyEncoding payment.
Proof.
  assert (Hidem : forall owner a,
             defaultCounterparty owner (defaultCounterparty owner a)
             = defaultCounterparty owner a).
  { intros owner [c v [p|]]; unfold defaultCounterparty, isNativeCurrency;
      cbn.
    - repeat (rewrite andb_false_r; cbn). reflexivity.
    - destruct (c =? "XRP")%string eqn:E; cbn; rewrite E; cbn;
        reflexivity. }
  assert (Hext : forall a b : Adjustment,
             address a = address b -> tag a = tag b ->
             (forall key, get_key a key = get_key b key) -> a = b).
  { intros [a1 a2 a3 a4 a5] [b1 b2 b3 b4 b5] H1 H2 Hk. cbn in H1, H2.
    pose proof (Hk key_amount) as K1. pose proof (Hk key_minAmount) as K2.
    pose proof (Hk key_maxAmount) as K3. cbn in K1, K2, K3.
    now subst. }
  assert (Hadj : forall a, encodeAdjustment (encodeAdjustment a)
                           = encodeAdjustment a).
  { intros a. apply Hext.
    - apply encodeAdjustment_address.
    - apply encodeAdjustment_tag.
    - intros key. rewrite !encodeAdjustment_key, encodeAdjustment_address.
      destruct (get_key a key) as [x|]; cbn; [|reflexivity].
      now rewrite Hidem. }
  unfold applyAnyCounterpartyEncoding at 1. cbn [map].
  rewrite applyAnyCounterpartyEncoding_source,
    applyAnyCounterpartyEncoding_destination, !Hadj.
  reflexivity.
Qed.

(** X9. After counterparty defaulting no amount property of the source or of
    the destination is an issued-currency amount without counterparty. *)
Theorem applyAnyCounterpartyEncoding_resolved (payment : Payment)
  (key : AmountKey) :
  let payment' := applyAnyCounterpartyEncoding payment in
  isIOUWithoutCounterparty (get_key (source payment') key) = false
  /\ isIOUWithoutCounterparty (get_key (destination payment') key) = false.
Proof.
  assert (Hres : forall owner o,
             isIOUWithoutCounterparty
               (option_map (defaultCounterparty owner) o) = false).
  { intros owner [[c v [p|]]|]; cbn; [| |reflexivity];
      unfold defaultCounterparty, isNativeCurrency; cbn.
    - repeat (rewrite andb_false_r; cbn). reflexivity.
    - destruct (c =? "XRP")%string eqn:E; cbn; rewrite E; reflexivity. }
  cbv zeta.
  rewrite applyAnyCounterpartyEncoding_source,
    applyAnyCounterpartyEncoding_destination, !encodeAdjustment_key.
  split; apply Hres.
Qed.

End PaymentFurther.

(** * Counterparty defaulting on object graphs *)

Section ObjectGraphProperties.

Context {T : ExternalTypes} {X : Externals T}.

Lemma defaultCounterparty_test (owner : string) (a : Amount) :
  defaultCounterparty owner a
  = if isIOUWithoutCounterparty (Some a)
    then with_counterparty a owner else a.
Proof. reflexivity. Qed.

(** Once defaulted, an amount is left alone by every later defaulting. *)
Lemma defaultCounterparty_settled (owner owner' : string) (a : Amount) :
  defaultCounterparty owner' (defaultCounterparty owner a)
  = defaultCounterparty owner a.
Proof.
  destruct a as [c v [p|]]; unfold defaultCounterparty, isNativeCurrency;
    cbn.
  - repeat (rewrite andb_false_r; cbn). reflexivity.
  - destruct (c =? "XRP")%string eqn:E; cbn; rewrite E; reflexivity.
Qed.

Lemma adjustment_ext (a b : Adjustment) :
  address a = address b -> tag a = tag b ->
  (forall key, get_key a key = get_key b key) -> a = b.
Proof.
  destruct a as [a1 a2 a3 a4 a5], b as [b1 b2 b3 b4 b5].
  intros H1 H2 Hk. cbn in H1, H2.
  pose proof (Hk key_amount) as K1. pose proof (Hk key_minAmount) as K2.
  pose proof (Hk key_maxAmount) as K3. cbn in K1, K2, K3.
  now subst.
Qed.

Lemma get_key_read (h : Heap) (adjustment : AdjustmentObject)
  (key : AmountKey) :
  get_key (read_adjustment h adjustment) key = object_key h adjustment key.
Proof. now destruct key. Qed.

(** One step of the loop over the keys, seen from any object [r]. *)
Lemma encode_step_lookup (adjustment : AdjustmentObject) (h : Heap)
  (key : AmountKey) (r : ref) :
  (if isIOUWithoutCounterparty (object_key h adjustment key)
   then
     match ref_key adjustment key, object_key h adjustment key with
     | Some r0, Some a =>
         write h r0 (with_counterparty a (o_address adjustment))
     | _, _ => h
     end
   else h) r
  = option_map
      (fun a => if is_ref adjustment key r
                then defaultCounterparty (o_address adjustment) a
                else a)
      (h r).
Proof.
  unfold object_key, is_ref.
  destruct (ref_key adjustment key) as [r0|].
  - destruct (h r0) as [a|] eqn:H0.
    + destruct (isIOUWithoutCounterparty (Some a)) eqn:Hi.
      * unfold write. destruct (Nat.eqb_spec r r0) as [->|Hne].
        -- rewrite H0. cbn [option_map].
           now rewrite defaultCounterparty_test, Hi.
        -- now destruct (h r).
      * destruct (Nat.eqb_spec r r0) as [->|Hne].
        -- rewrite H0. cbn [option_map].
           now rewrite defaultCounterparty_test, Hi.
        -- now destruct (h r).
    + cbn. destruct (Nat.eqb_spec r r0) as [->|Hne].
      * now rewrite H0.
      * now destruct (h r).
  - cbn. now destruct (h r).
Qed.

(** The loop over the keys of one adjustment, seen from any object. *)
Lemma encodeAdjustmentInPlace_lookup (adjustment : AdjustmentObject)
  (h : Heap) (r : ref) :
  encodeAdjustmentInPlace adjustment h r
  = option_map
      (fun a => if visited adjustment r
                then defaultCounterparty (o_address adjustment) a
                else a)
      (h r).
Proof.
  unfold encodeAdjustmentInPlace. cbn [fold_left].
  rewrite !encode_step_lookup. unfold visited.
  destruct (h r) as [a|]; [|reflexivity]. cbn [option_map].
  destruct (is_ref adjustment key_amount r),
    (is_ref adjustment key_minAmount r),
    (is_ref adjustment key_maxAmount r); cbn [orb];
    rewrite ?defaultCounterparty_settled; reflexivity.
Qed.

(** The whole pass, seen from any object: the source's default first, the
    destination's on what the source left. *)
Lemma applyAnyCounterpartyEncodingInPlace_lookup (payment : PaymentObject)
  (h : Heap) (r : ref) :
  applyAnyCounterpartyEncodingInPlace payment h r
  = option_map
      (fun a =>
         if visited (o_source payment) r
         then defaultCounterparty (o_address (o_source payment)) a
         else if visited (o_destination payment) r
              then defaultCounterparty (o_address (o_destination payment)) a
              else a)
      (h r).
Proof.
  unfold applyAnyCounterpartyEncodingInPlace. cbn [fold_left].
  rewrite !encodeAdjustmentInPlace_lookup.
  destruct (h r) as [a|]; [|reflexivity]. cbn [option_map].
  destruct (visited (o_source payment) r),
    (visited (o_destination payment) r);
    rewrite ?defaultCounterparty_settled; reflexivity.
Qed.

Lemma visited_ref (adjustment : AdjustmentObject) (key : AmountKey)
  (r : ref) :
  ref_key adjustment key = Some r -> visited adjustment r = true.
Proof.
  intros H. unfold visited, is_ref.
  destruct key; cbn [ref_key] in *; rewrite H, Nat.eqb_refl;
    rewrite ?orb_true_r; reflexivity.
Qed.

(** Every amount property of the source gets the source's address. *)
Lemma applyAnyCounterpartyEncodingInPlace_source (payment : PaymentObject)
  (h : Heap) (key : AmountKey) :
  object_key (applyAnyCounterpartyEncodingInPlace payment h)
    (o_source payment) key
  = option_map (defaultCounterparty (o_address (o_source payment)))
      (object_key h (o_source payment) key).
Proof.
  unfold object_key.
  destruct (ref_key (o_source payment) key) as [r|] eqn:Hr; [|reflexivity].
  rewrite applyAnyCounterpartyEncodingInPlace_lookup.
  now rewrite (visited_ref _ _ _ Hr).
Qed.

(** An amount property of the destination gets the destination's address,
    unless its object is also an amount of the source: then it has the
    source's. *)
Lemma applyAnyCounterpartyEncodingInPlace_destination
  (payment : PaymentObject) (h : Heap) (key : AmountKey) (r : ref) :
  ref_key (o_destination payment) key = Some r ->
  object_key (applyAnyCounterpartyEncodingInPlace payment h)
    (o_destination payment) key
  = option_map
      (defaultCounterparty
         (if visited (o_source payment) r
          then o_address (o_source payment)
          else o_address (o_destination payment)))
      (h r).
Proof.
  intros Hr. unfold object_key. rewrite Hr.
  rewrite applyAnyCounterpartyEncodingInPlace_lookup.
  rewrite (visited_ref _ _ _ Hr).
  now destruct (visited (o_source payment) r).
Qed.

(** On an intent whose source and destination share no amount object the
    pass in place is the pass on values. *)
Lemma applyAnyCounterpartyEncodingInPlace_separate (payment : PaymentObject)
  (h : Heap) :
  separate payment ->
  read_payment (applyAnyCounterpartyEncodingInPlace payment h) payment
  = applyAnyCounterpartyEncoding (read_payment h payment).
Proof.
  intros Hsep.
  unfold applyAnyCounterpartyEncoding. cbn [map].
  unfold read_payment at 1. cbn [source destination paths memos invoiceID
    allowPartialPayment noDirectStoxum limitQuality read_payment].
  f_equal.
  - apply adjustment_ext.
    + now rewrite encodeAdjustment_address.
    + now rewrite encodeAdjustment_tag.
    + intros key. rewrite encodeAdjustment_key, !get_key_read.
      apply applyAnyCounterpartyEncodingInPlace_source.
  - apply adjustment_ext.
    + now rewrite encodeAdjustment_address.
    + now rewrite encodeAdjustment_tag.
    + intros key. rewrite encodeAdjustment_key, !get_key_read.
      destruct (ref_key (o_destination payment) key) as [r|] eqn:Hr.
      * rewrite (applyAnyCounterpartyEncodingInPlace_destination _ _ _ _ Hr).
        rewrite (Hsep key r Hr). unfold object_key. now rewrite Hr.
      * unfold object_key. now rewrite Hr.
Qed.

Lemma applyAnyCounterpartyEncodingInPlace_defined (payment : PaymentObject)
  (h : Heap) (adjustment : AdjustmentObject) (key : AmountKey) :
  defined (object_key (applyAnyCounterpartyEncodingInPlace payment h)
             adjustment key)
  = defined (object_key h adjustment key).
Proof.
  unfold object_key.
  destruct (ref_key adjustment key) as [r|]; [|reflexivity].
  rewrite applyAnyCounterpartyEncodingInPlace_lookup.
  apply defined_option_map.
Qed.

(** X2. A compiled payment that is not all-native always carries a send-max:
    the encoded source amount ([maxAmount] when the source has one, [amount]
    otherwise), a missing counterparty defaulted to the source's address. It
    carries a deliver-minimum exactly when the destination has a [minAmount]:
    that amount itself encoded, not the maximal amount put in [Amount], a
    missing counterparty defaulted to the destination's address - or to the
    source's address when the same amount object is also an amount of the
    source. *)
Theorem createPaymentTransactionObject_send_max (address' : string)
  (payment : PaymentObject) (h : Heap) (tx : TxJSON) :
  createPaymentTransactionObject address' payment h = Ok tx ->
  isXRPToXRPPayment (read_payment h payment) = Ok false ->
  let src := o_source payment in
  let dst := o_destination payment in
  let sourceKey :=
    if defined (object_key h src key_maxAmount)
    then key_maxAmount else key_amount in
  let floored := defined (object_key h dst key_minAmount) in
  let destinationKey := if floored then key_minAmount else key_amount in
  exists (s d : Amount) (r : ref),
    object_key h src sourceKey = Some s
    /\ ref_key dst destinationKey = Some r
    /\ h r = Some d
    /\ tx_SendMax tx
       = Some (toStoxumdAmount (defaultCounterparty (o_address src) s))
    /\ tx_DeliverMin tx
       = (if floored
          then Some (toStoxumdAmount
                       (defaultCounterparty
                          (if visited src r
                           then o_address src else o_address dst)
                          d))
          else None).
Proof.
  intros H Hx. cbv zeta.
  unfold createPaymentTransactionObject in H. cbv zeta in H.
  set (h' := applyAnyCounterpartyEncodingInPlace payment h) in *.
  destruct (createPaymentTransaction_ok_amounts _ _ _ H)
    as (-> & Hv & sq & dq & Hsq & Hdq & _).
  rewrite (createPaymentTransaction_closed_form _ sq dq Hv Hsq Hdq) in H.
  (* the source amount *)
  unfold sourceAmountOf, isMaxAdjustment in Hsq.
  cbn [source read_payment read_adjustment maxAmount amount] in Hsq.
  unfold h' in Hsq.
  rewrite applyAnyCounterpartyEncodingInPlace_defined in Hsq.
  assert (Hs0 : exists s,
             object_key h (o_source payment)
               (if defined (object_key h (o_source payment) key_maxAmount)
                then key_maxAmount else key_amount) = Some s
             /\ sq = defaultCounterparty (o_address (o_source payment)) s).
  { destruct (defined (object_key h (o_source payment) key_maxAmount));
      rewrite applyAnyCounterpartyEncodingInPlace_source in Hsq;
      match type of Hsq with
      | option_map _ ?o = _ => destruct o as [s|]; [|discriminate]
      end; injection Hsq as <-; now exists s. }
  destruct Hs0 as (s & Hs & ->).
  (* the destination amount *)
  unfold destinationAmountOf, isMinAdjustment in Hdq.
  cbn [destination read_payment read_adjustment minAmount amount] in Hdq.
  unfold h' in Hdq.
  rewrite applyAnyCounterpartyEncodingInPlace_defined in Hdq.
  assert (Hd0 : exists d r,
             ref_key (o_destination payment)
               (if defined (object_key h (o_destination payment)
                              key_minAmount)
                then key_minAmount else key_amount) = Some r
             /\ h r = Some d
             /\ dq = defaultCounterparty
                       (if visited (o_source payment) r
                        then o_address (o_source payment)
                        else o_address (o_destination payment)) d).
  { destruct (defined (object_key h (o_destination payment) key_minAmount));
      match type of Hdq with
      | object_key _ _ ?k = _ =>
          destruct (ref_key (o_destination payment) k) as [r|] eqn:Hr;
          [ rewrite (applyAnyCounterpartyEncodingInPlace_destination
                       _ _ _ _ Hr) in Hdq
          | unfold object_key in Hdq; rewrite Hr in Hdq; discriminate ]
      end;
      destruct (h r) as [d|] eqn:Hd; try discriminate;
      injection Hdq as <-; exists d, r; auto. }
  destruct Hd0 as (d & r & Hr & Hd & ->).
  exists s, d, r.
  split; [exact Hs|]. split; [exact Hr|]. split; [exact Hd|].
  (* not all-native *)
  rewrite isXRPToXRPPayment_resolved in Hx.
  unfold sourceAmountOf, destinationAmountOf, isMaxAdjustment,
    isMinAdjustment in Hx.
  cbn [source destination read_payment read_adjustment maxAmount minAmount
       amount] in Hx.
  assert (Hn : isNativeCurrency
                 (defaultCounterparty (o_address (o_source payment)) s)
               && isNativeCurrency
                    (defaultCounterparty
                       (if visited (o_source payment) r
                        then o_address (o_source payment)
                        else o_address (o_destination payment)) d)
               = false).
  { unfold isNativeCurrency. rewrite !defaultCounterparty_currency.
    destruct (defined (object_key h (o_source payment) key_maxAmount));
      destruct (defined (object_key h (o_destination payment)
                           key_minAmount));
      rewrite Hs in Hx; unfold object_key in Hx; rewrite Hr, Hd in Hx;
      cbn in Hx; now injection Hx. }
  rewrite Hn in H.
  assert (Hmin : isMinAdjustment (destination (read_payment h' payment))
                 = defined (object_key h (o_destination payment)
                              key_minAmount)).
  { unfold isMinAdjustment. cbn. unfold h'.
    apply applyAnyCounterpartyEncodingInPlace_defined. }
  assert (Hfields :
    tx_SendMax
      (paymentTransaction (read_payment h' payment)
         (defaultCounterparty (o_address (o_source payment)) s)
         (defaultCounterparty
            (if visited (o_source payment) r
             then o_address (o_source payment)
             else o_address (o_destination payment)) d))
    = Some (toStoxumdAmount
              (defaultCounterparty (o_address (o_source payment)) s))
    /\ tx_DeliverMin
         (paymentTransaction (read_payment h' payment)
            (defaultCounterparty (o_address (o_source payment)) s)
            (defaultCounterparty
               (if visited (o_source payment) r
                then o_address (o_source payment)
                else o_address (o_destination payment)) d))
       = (if defined (object_key h (o_destination payment) key_minAmount)
          then Some (toStoxumdAmount
                       (defaultCounterparty
                          (if visited (o_source payment) r
                           then o_address (o_source payment)
                           else o_address (o_destination payment)) d))
          else None)).
  { unfold paymentTransaction. cbn [tx_SendMax tx_DeliverMin].
    rewrite Hn, Hmin. cbn [negb andb address source destination
      read_payment read_adjustment].
    rewrite !defaultCounterparty_settled. now split. }
  destruct Hfields as [Hsm Hdm].
  destruct (paths (read_payment h' payment)) as [text|].
  - destruct (JSON_parse text); [|discriminate].
    injection H as <-. cbn [tx_SendMax tx_DeliverMin set_Paths].
    now split.
  - injection H as <-. now split.
Qed.

End ObjectGraphProperties.

(** * Further properties of path finding *)

Section PathFindFurther.

Context {T : ExternalTypes} {X : Externals T}.

(** X10. The request builder fails in one case only, a query that gives
    both a source amount and the value of the destination amount; in every
    other case the request is built, and it carries a send-max exactly when
    the query gives a source amount. *)
Theorem pathFindRequest_fails_iff (pathfind : PathFind) :
  let both :=
    defined (pf_source_amount (pf_source pathfind))
    && defined (lax_value (pf_destination_amount
                             (pf_destination pathfind))) in
  (both = true ->
   pathFindRequest pathfind = Throw (ValidationError msg_both_amounts))
  /\ (both = false ->
      exists request,
        pathFindRequest pathfind = Ok request
        /\ defined (send_max request)
           = defined (pf_source_amount (pf_source pathfind))).
Proof.
  cbv zeta. unfold pathFindRequest.
  destruct (pf_source_amount (pf_source pathfind)) as [fixed|];
    destruct (lax_value (pf_destination_amount (pf_destination pathfind)))
      as [v|]; cbn [defined andb]; split; try discriminate; intros _;
    try reflexivity.
  - destruct (toStoxumdAmount fixed) as [drops|o];
      [|destruct (falsy (iou_issuer o))];
      cbn [bind]; eexists; split; reflexivity.
  - cbn [bind]. eexists; split; reflexivity.
  - cbn [bind]. eexists; split; reflexivity.
Qed.

(** X11. The destination amount of a built request is the encoding of the
    query's destination amount, with the value -1 when the query leaves the
    value unset; when that encoding is an object without issuer, its issuer
    is the destination address (not the source address, which is what a
    send-max without issuer gets). *)
Theorem pathFindRequest_destination_amount (pathfind : PathFind)
  (request : PathFindRequest) :
  pathFindRequest pathfind = Ok request ->
  let dst := pf_destination_amount (pf_destination pathfind) in
  let encoded :=
    toStoxumdAmount
      {| currency := lax_currency dst;
         value := match lax_value dst with Some v => v | None => "-1" end;
         counterparty := lax_counterparty dst |} in
  destination_amount request
  = match encoded with
    | AmountString drops => AmountString drops
    | AmountObject o =>
        if falsy (iou_issuer o)
        then AmountObject
               {| iou_currency := iou_currency o;
                  iou_issuer :=
                    Some (pf_destination_address (pf_destination pathfind));
                  iou_value := iou_value o |}
        else AmountObject o
    end.
Proof.
  unfold pathFindRequest. intros H. cbv zeta.
  match type of H with
  | (x <- ?m ;; _) = _ => destruct m as [sm|e]; [|discriminate]
  end.
  cbn [bind] in H. injection H as <-. cbn [destination_amount].
  destruct (toStoxumdAmount _) as [drops|o]; [reflexivity|].
  now destruct (falsy (iou_issuer o)).
Qed.

(** X12. When the source and destination addresses are not empty, no object
    amount leaves the builder without issuer, neither as destination amount
    nor as send-max. *)
Theorem pathFindRequest_issuers (pathfind : PathFind)
  (request : PathFindRequest) :
  pathFindRequest pathfind = Ok request ->
  pf_source_address (pf_source pathfind) <> "" ->
  pf_destination_address (pf_destination pathfind) <> "" ->
  (forall o, destination_amount request = AmountObject o ->
             falsy (iou_issuer o) = false)
  /\ (forall o, send_max request = Some (AmountObject o) ->
                falsy (iou_issuer o) = false).
Proof.
  unfold pathFindRequest. intros H Hs Hd.
  apply String.eqb_neq in Hs, Hd.
  destruct (pf_source_amount (pf_source pathfind)) as [fixed|].
  - destruct (defined (lax_value _)); [discriminate|].
    destruct (toStoxumdAmount fixed) as [drops|so];
      [|destruct (falsy (iou_issuer so)) eqn:Hf];
      cbn [bind] in H; injection H as <-;
      cbn [destination_amount send_max];
      (split;
       [ destruct (toStoxumdAmount _) as [drops'|o'];
         [discriminate|];
         destruct (falsy (iou_issuer o')) eqn:Hf';
         intros o Ho; injection Ho as <-; cbn; assumption
       | intros o Ho; try discriminate; injection Ho as <-; cbn;
         assumption ]).
  - cbn [bind] in H. injection H as <-.
    cbn [destination_amount send_max].
    split; [|discriminate].
    destruct (toStoxumdAmount _) as [drops'|o']; [discriminate|].
    destruct (falsy (iou_issuer o')) eqn:Hf';
      intros o Ho; injection Ho as <-; cbn; assumption.
Qed.

(** X13. The source currencies of the query are sent renamed, in the same
    order; an empty list of currencies is sent as no list at all. *)
Theorem pathFindRequest_currencies (pathfind : PathFind)
  (request : PathFindRequest) :
  pathFindRequest pathfind = Ok request ->
  source_currencies request
  = match pf_source_currencies (pf_source pathfind) with
    | Some (c :: cs) => Some (map renameCounterpartyToIssuer (c :: cs))
    | _ => None
    end
  /\ source_currencies request <> Some []
  /\ source_account request = pf_source_address (pf_source pathfind)
  /\ destination_account request
     = pf_destination_address (pf_destination pathfind).
Proof.
  unfold pathFindRequest. intros H.
  match type of H with
  | (x <- ?m ;; _) = _ => destruct m as [sm|e]; [|discriminate]
  end.
  cbn [bind] in H. injection H as <-.
  cbn [source_currencies source_account destination_account].
  destruct (pf_source_currencies (pf_source pathfind)) as [[|c cs]|]; cbn;
    repeat split; discriminate.
Qed.

Lemma run_conditionallyAddDirectXRPPath (c : Connection)
  (address' : string) (paths : StoxumdPathsResponse) :
  run c (conditionallyAddDirectXRPPath address' paths)
  = if isStoxumdIOUAmount (rsp_destination_amount paths)
       || negb (includes (destination_currencies paths) "XRP")
    then ([], Ok paths)
    else
      match answer_balance c address' with
      | Ok xrpBalance =>
          ([CallBalance address'], addDirectXrpPath paths xrpBalance)
      | Throw e => ([CallBalance address'], Throw e)
      end.
Proof.
  unfold conditionallyAddDirectXRPPath.
  destruct (isStoxumdIOUAmount (rsp_destination_amount paths)
            || negb (includes (destination_currencies paths) "XRP"));
    [reflexivity|].
  cbn. destruct (answer_balance c address'); [|reflexivity].
  now rewrite run_settle.
Qed.

Lemma run_processedResponse (c : Connection) (pathfind : PathFind) :
  run c (processedResponse pathfind)
  = match pathFindRequest pathfind with
    | Throw e => ([], Throw e)
    | Ok request =>
        match answer_request c request with
        | Throw e => ([CallRequest request], Throw e)
        | Ok raw =>
            let injected :=
              run c (conditionallyAddDirectXRPPath
                       (pf_source_address (pf_source pathfind))
                       (addParams request raw)) in
            (CallRequest request :: fst injected,
             paths <- snd injected ;;
             Ok (filterSourceFundsLowPaths pathfind paths))
        end
    end.
Proof.
  unfold processedResponse. rewrite !run_then. unfold requestPathFind.
  destruct (pathFindRequest pathfind) as [request|e]; [|reflexivity].
  cbn [run]. destruct (answer_request c request) as [raw|e]; [|reflexivity].
  cbn [run app fst snd].
  destruct (run c (conditionallyAddDirectXRPPath _ _)) as [calls [p|e]];
    cbn; [|reflexivity].
  now rewrite app_nil_r.
Qed.

Lemma run_getPaths (c : Connection) (pathfind : PathFind) :
  run c (getPaths pathfind)
  = match validate_getPaths pathfind with
    | Throw e => ([], Throw e)
    | Ok _ =>
        (fst (run c (processedResponse pathfind)),
         paths <- snd (run c (processedResponse pathfind)) ;;
         formatResponse pathfind paths)
    end.
Proof.
  unfold getPaths.
  destruct (validate_getPaths pathfind); [|reflexivity].
  rewrite run_then.
  destruct (run c (processedResponse pathfind)) as [calls [p|e]];
    [|reflexivity].
  rewrite run_settle. cbn. now rewrite app_nil_r.
Qed.

(** X14. A response without an alternatives list cannot take the direct
    route: when the destination amount is a native amount (a string), the
    destination lists the native currency and the balance covers the amount,
    the stage fails with a type error after the balance lookup; when the
    balance does not cover it, the response is returned as it is. *)
Theorem conditionallyAddDirectXRPPath_missing_alternatives (c : Connection)
  (address' : string) (paths : StoxumdPathsResponse)
  (drops xrpBalance : string) :
  alternatives paths = None ->
  rsp_destination_amount paths = AmountString drops ->
  accepts paths "XRP" ->
  answer_balance c address' = Ok xrpBalance ->
  run c (conditionallyAddDirectXRPPath address' paths)
  = ([CallBalance address'],
     if BigNumber_gte xrpBalance (AmountString drops)
     then Throw TypeError
     else Ok paths).
Proof.
  intros Hn Hd Ha Hb. apply includes_accepts in Ha.
  rewrite run_conditionallyAddDirectXRPPath, Hd, Ha, Hb. cbn.
  unfold addDirectXrpPath. rewrite Hn, Hd.
  now destruct (BigNumber_gte xrpBalance (AmountString drops)).
Qed.

(** X15. Direct-route injection makes at most one call, the balance lookup
    of the given address; when that lookup fails, the stage fails with the
    same error. *)
Theorem conditionallyAddDirectXRPPath_calls (c : Connection)
  (address' : string) (paths : StoxumdPathsResponse) :
  let outcome := run c (conditionallyAddDirectXRPPath address' paths) in
  (fst outcome = [] \/ fst outcome = [CallBalance address'])
  /\ (forall e,
         fst outcome = [CallBalance address'] ->
         answer_balance c address' = Throw e ->
         snd outcome = Throw e).
Proof.
  cbv zeta. rewrite run_conditionallyAddDirectXRPPath.
  destruct (isStoxumdIOUAmount (rsp_destination_amount paths)
            || negb (includes (destination_currencies paths) "XRP")).
  - cbn. split; [now left | discriminate].
  - destruct (answer_balance c address') as [balance|e']; cbn.
    + split; [now right | discriminate].
    + split; [now right|]. intros e _ H. now injection H as ->.
Qed.

(** X16. Low-funds filtering is idempotent. *)
Theorem filterSourceFundsLowPaths_idempotent (pathfind : PathFind)
  (paths : StoxumdPathsResponse) :
  filterSourceFundsLowPaths pathfind
    (filterSourceFundsLowPaths pathfind paths)
  = filterSourceFundsLowPaths pathfind paths.
Proof.
  assert (Hf : forall l,
             filter (sourceFundsMatch pathfind)
               (filter (sourceFundsMatch pathfind) l)
             = filter (sourceFundsMatch pathfind) l).
  { induction l as [|alt l IH]; [reflexivity|].
    cbn. destruct (sourceFundsMatch pathfind alt) eqn:Hm; cbn.
    - now rewrite Hm, IH.
    - exact IH. }
  unfold filterSourceFundsLowPaths.
  destruct (defined (pf_source_amount (pf_source pathfind))
            && negb (defined (lax_value (pf_destination_amount
                                           (pf_destination pathfind)))))
    eqn:Hc; [|reflexivity].
  destruct (alternatives paths) as [alts|] eqn:Ha.
  - unfold set_alternatives. cbn. now rewrite Hf.
  - now rewrite Ha.
Qed.

(** X17. When the filter applies, an alternative whose source amount is an
    object is kept iff the value of that amount equals the fixed source
    amount of the query. *)
Theorem filterSourceFundsLowPaths_objects (pathfind : PathFind)
  (paths : StoxumdPathsResponse) (fixed : Amount) (alts : list Alternative)
  (alt : Alternative) (o : IssuedAmount) :
  pf_source_amount (pf_source pathfind) = Some fixed ->
  lax_value (pf_destination_amount (pf_destination pathfind)) = None ->
  alternatives paths = Some alts ->
  source_amount alt = Some (AmountObject o) ->
  exists kept,
    alternatives (filterSourceFundsLowPaths pathfind paths) = Some kept
    /\ (In alt kept
        <-> In alt alts /\ BigNumber_eq (iou_value o) (value fixed) = true).
Proof.
  intros Hs Hv Ha Ho.
  exists (filter (sourceFundsMatch pathfind) alts).
  split; [now apply (filterSourceFundsLowPaths_applies _ _ fixed)|].
  rewrite filter_In.
  now rewrite (sourceFundsMatch_object pathfind fixed alt o Hs Ho).
Qed.

(** X18. The filter only removes alternatives: what it keeps was there, no
    more than before, and a response without an alternatives list is
    returned untouched; nothing but the alternatives changes. *)
Theorem filterSourceFundsLowPaths_shrinks (pathfind : PathFind)
  (paths : StoxumdPathsResponse) :
  let paths' := filterSourceFundsLowPaths pathfind paths in
  (alternatives paths = None -> paths' = paths)
  /\ (forall alts,
         alternatives paths = Some alts ->
         exists kept,
           alternatives paths' = Some kept
           /\ incl kept alts
           /\ (length kept <= length alts)%nat)
  /\ rsp_destination_account paths' = rsp_destination_account paths
  /\ rsp_destination_amount paths' = rsp_destination_amount paths
  /\ destination_currencies paths' = destination_currencies paths
  /\ rsp_source_account paths' = rsp_source_account paths
  /\ rsp_source_currencies paths' = rsp_source_currencies paths.
Proof.
  cbv zeta. unfold filterSourceFundsLowPaths.
  destruct (defined (pf_source_amount (pf_source pathfind))
            && negb (defined (lax_value (pf_destination_amount
                                           (pf_destination pathfind))))).
  - destruct (alternatives paths) as [alts|] eqn:Ha.
    + split; [discriminate|]. split; [|cbn; repeat split].
      intros alts' H. injection H as <-.
      exists (filter (sourceFundsMatch pathfind) alts).
      split; [reflexivity|]. split.
      * intros x Hx. now apply filter_In in Hx.
      * apply filter_length_le.
    + split; [reflexivity|]. split; [|repeat split].
      intros alts H. discriminate.
  - split; [reflexivity|]. split; [|repeat split].
    intros alts H. exists alts. split; [assumption|].
    split; [apply incl_refl | apply Nat.le_refl].
Qed.

(** X19. [formatResponse] returns the parsed response whenever the
    response has at least one alternative and every alternative has a source
    amount, whether or not the destination lists the requested currency;
    when the response has no alternative it throws a not-found error. *)
Theorem formatResponse_routes_or_not_found (pathfind : PathFind)
  (paths : StoxumdPathsResponse) :
  (forall alts,
      alternatives paths = Some alts ->
      alts <> [] ->
      (forall alt, In alt alts -> source_amount alt <> None) ->
      formatResponse pathfind paths = Ok (parsePathfind paths))
  /\ (nonempty (alternatives paths) = false ->
      exists message,
        formatResponse pathfind paths = Throw (NotFoundError message)).
Proof.
  unfold formatResponse. split.
  - intros alts Ha Hne _. rewrite Ha.
    destruct alts as [|alt alts]; [contradiction | reflexivity].
  - intros ->.
    destruct (destination_currencies paths) as [accepted|];
      [destruct (negb (includes (Some accepted) _)); [eauto|]|];
      destruct (nonempty (rsp_source_currencies paths)); eauto.
Qed.

(** X20. A route query makes at most two calls, in this order: the
    path-find request built from the query, then the balance lookup of the
    source address. It never makes any other call. *)
Theorem getPaths_calls (c : Connection) (pathfind : PathFind) :
  let calls := fst (run c (getPaths pathfind)) in
  calls = []
  \/ exists request,
       pathFindRequest pathfind = Ok request
       /\ (calls = [CallRequest request]
           \/ calls = [CallRequest request;
                       CallBalance (pf_source_address (pf_source pathfind))]).
Proof.
  cbv zeta. rewrite run_getPaths.
  destruct (validate_getPaths pathfind); [|now left].
  cbn [fst]. rewrite run_processedResponse.
  destruct (pathFindRequest pathfind) as [request|e]; [|now left].
  right. exists request. split; [reflexivity|].
  destruct (answer_request c request) as [raw|e]; [|now left].
  cbn [fst]. rewrite run_conditionallyAddDirectXRPPath.
  destruct (isStoxumdIOUAmount _ || _); [now left|].
  destruct (answer_balance c _); now right.
Qed.

(** X21. Failures pass through a route query unchanged: a validation
    failure before any call, a failure of the path-find request after that
    one call. *)
Theorem getPaths_failures (c : Connection) (pathfind : PathFind) :
  (forall e,
      validate_getPaths pathfind = Throw e ->
      run c (getPaths pathfind) = ([], Throw e))
  /\ (forall u request e,
         validate_getPaths pathfind = Ok u ->
         pathFindRequest pathfind = Ok request ->
         answer_request c request = Throw e ->
         run c (getPaths pathfind) = ([CallRequest request], Throw e)).
Proof.
  split.
  - intros e H. now rewrite run_getPaths, H.
  - intros u request e Hv Hr Ha.
    now rewrite run_getPaths, Hv, run_processedResponse, Hr, Ha.
Qed.

(** X22. A route query returns routes only from a processed response with
    at least one alternative, and the routes are the parse of that
    response. *)
Theorem getPaths_routes (c : Connection) (pathfind : PathFind)
  (calls : list Call) (routes : GetPaths) :
  run c (getPaths pathfind) = (calls, Ok routes) ->
  exists processed,
    run c (processedResponse pathfind) = (calls, Ok processed)
    /\ nonempty (alternatives processed) = true
    /\ routes = parsePathfind processed.
Proof.
  rewrite run_getPaths.
  destruct (validate_getPaths pathfind); [|discriminate].
  destruct (run c (processedResponse pathfind)) as [calls' [processed|e]];
    cbn; [|discriminate].
  intros H. injection H as <- H. exists processed.
  split; [reflexivity|].
  unfold formatResponse in H.
  destruct (nonempty (alternatives processed)).
  - injection H as <-. now split.
  - exfalso.
    destruct (destination_currencies processed) as [accepted|];
      [destruct (negb (includes (Some accepted) _)); [discriminate|]|];
      destruct (nonempty (rsp_source_currencies processed)); discriminate.
Qed.

(** X23. In a query that fixes a source amount, every alternative that
    reaches the last stage has an object as source amount whose value equals
    the fixed amount; in particular a direct route injected with a string
    amount does not survive the filter. *)
Theorem processedResponse_fixed_spend (c : Connection) (pathfind : PathFind)
  (calls : list Call) (processed : StoxumdPathsResponse) (fixed : Amount)
  (kept : list Alternative) (alt : Alternative) :
  run c (processedResponse pathfind) = (calls, Ok processed) ->
  pf_source_amount (pf_source pathfind) = Some fixed ->
  alternatives processed = Some kept ->
  In alt kept ->
  exists o,
    source_amount alt = Some (AmountObject o)
    /\ BigNumber_eq (iou_value o) (value fixed) = true.
Proof.
  intros Hrun Hs Hk Hin.
  rewrite run_processedResponse in Hrun.
  destruct (pathFindRequest pathfind) as [request|e] eqn:Hr; [|discriminate].
  assert (Hv : lax_value (pf_destination_amount (pf_destination pathfind))
               = None).
  { unfold pathFindRequest in Hr. rewrite Hs in Hr.
    destruct (lax_value _); [discriminate | reflexivity]. }
  destruct (answer_request c request) as [raw|e]; [|discriminate].
  cbv zeta in Hrun.
  destruct (run c (conditionallyAddDirectXRPPath _ _)) as [calls1 [p1|e]];
    cbn in Hrun; [|discriminate].
  injection Hrun as _ <-.
  destruct (alternatives p1) as [alts|] eqn:Ha.
  - rewrite (filterSourceFundsLowPaths_applies pathfind p1 fixed alts
               Hs Hv Ha) in Hk.
    injection Hk as <-. apply filter_In in Hin. destruct Hin as [_ Hm].
    unfold sourceFundsMatch in Hm. rewrite Hs in Hm.
    destruct (source_amount alt) as [[drops|o]|]; cbn in Hm;
      try discriminate.
    now exists o.
  - unfold filterSourceFundsLowPaths in Hk. rewrite Ha in Hk.
    destruct (_ && _) in Hk; rewrite Ha in Hk; discriminate.
Qed.

(** X24. The stages after the round trip touch nothing but the
    alternatives: the processed response reports the source account and the
    source currencies of the request, the accepted currencies of the server's
    answer, and as destination amount the server's when it gives one, the
    request's otherwise. *)
Theorem processedResponse_header (c : Connection) (pathfind : PathFind)
  (calls : list Call) (processed : StoxumdPathsResponse) :
  run c (processedResponse pathfind) = (calls, Ok processed) ->
  exists request raw,
    pathFindRequest pathfind = Ok request
    /\ answer_request c request = Ok raw
    /\ rsp_source_account processed = pf_source_address (pf_source pathfind)
    /\ rsp_source_currencies processed = source_currencies request
    /\ destination_currencies processed = raw_destination_currencies raw
    /\ rsp_destination_account processed = raw_destination_account raw
    /\ rsp_destination_amount processed
       = match raw_destination_amount raw with
         | Some a => a
         | None => destination_amount request
         end.
Proof.
  intros Hrun. rewrite run_processedResponse in Hrun.
  destruct (pathFindRequest pathfind) as [request|e] eqn:Hr; [|discriminate].
  destruct (answer_request c request) as [raw|e] eqn:Ha; [|discriminate].
  exists request, raw. split; [reflexivity|]. split; [exact Ha|].
  cbv zeta in Hrun. rewrite run_conditionallyAddDirectXRPPath in Hrun.
  assert (Hacc' : source_account request
                  = pf_source_address (pf_source pathfind)).
  { unfold pathFindRequest in Hr.
    match type of Hr with
    | (x <- ?m ;; _) = _ => destruct m as [sm|e]; [|discriminate]
    end.
    cbn [bind] in Hr. now injection Hr as <-. }
  set (p0 := addParams request raw) in *.
  assert (Hfin : forall p1,
             rsp_source_account p1 = rsp_source_account p0 ->
             rsp_source_currencies p1 = rsp_source_currencies p0 ->
             destination_currencies p1 = destination_currencies p0 ->
             rsp_destination_account p1 = rsp_destination_account p0 ->
             rsp_destination_amount p1 = rsp_destination_amount p0 ->
             processed = filterSourceFundsLowPaths pathfind p1 ->
             rsp_source_account processed
             = pf_source_address (pf_source pathfind)
             /\ rsp_source_currencies processed = source_currencies request
             /\ destination_currencies processed
                = raw_destination_currencies raw
             /\ rsp_destination_account processed
                = raw_destination_account raw
             /\ rsp_destination_amount processed
                = match raw_destination_amount raw with
                  | Some a => a
                  | None => destination_amount request
                  end).
  { intros p1 H1 H2 H3 H4 H5 ->.
    unfold filterSourceFundsLowPaths.
    destruct (_ && _); [destruct (alternatives p1)|]; cbn;
      rewrite ?H1, ?H2, ?H3, ?H4, ?H5; subst p0; cbn; rewrite ?Hacc';
      repeat split. }
  destruct (isStoxumdIOUAmount _ || _).
  - cbn in Hrun. injection Hrun as _ Hp. apply (Hfin p0); auto.
  - destruct (answer_balance c _) as [balance|e]; [|discriminate].
    cbn [fst snd] in Hrun. unfold addDirectXrpPath in Hrun.
    destruct (BigNumber_gte balance _).
    + destruct (alternatives p0) as [alts|]; cbn in Hrun; [|discriminate].
      injection Hrun as _ Hp. eapply Hfin; [..|symmetry; exact Hp];
        reflexivity.
    + cbn in Hrun. injection Hrun as _ Hp. apply (Hfin p0); auto.
Qed.

End PathFindFurther.

(** * The properties at concrete inputs *)

Import Examples.

#[local] Existing Instance Reference.types.
#[local] Existing Instance Reference.externals.

(** The sample payment compiles to a transaction without send-max or
    deliver-minimum. *)
Lemma sample_payment_compiles :
  createPaymentTransaction "rSource" sample_payment
  = Ok {| tx_TransactionType := "Payment";
          tx_Account := "rSource";
          tx_Destination := "rKmBGxocj9Abgy25J51Mk1iqFzW9aVF9Tc";
          tx_Amount := AmountString "0.01";
          tx_Flags := 0;
          tx_InvoiceID := None; tx_SourceTag := None;
          tx_DestinationTag := None; tx_Memos := None;
          tx_SendMax := None; tx_DeliverMin := None; tx_Paths := None |}.
Proof. reflexivity. Qed.

Lemma createPaymentTransaction_pairing_witness :
  validPairing ambiguous_payment = false
  /\ createPaymentTransaction "rSource" ambiguous_payment
     = Throw (ValidationError msg_adjustment)
  /\ fst (run no_route (preparePayment "rSource" ambiguous_payment tt)) = [].
Proof.
  split; [reflexivity|].
  destruct (createPaymentTransaction_pairing "rSource"
              ambiguous_payment tt) as [_ H].
  destruct (H eq_refl) as (Hc & _ & Hn).
  split; [exact Hc | exact (Hn no_route)].
Defined.

(** C4 as stated fails: with both a maximum and a minimum, and an address
    that is not the source's, the error is the address mismatch, not the
    ambiguous adjustment. *)
Lemma createPaymentTransaction_pairing_counterexample :
  ~ (forall (address' : string) (payment : Payment),
        validPairing payment = false ->
        createPaymentTransaction address' payment
        = Throw (ValidationError msg_adjustment)).
Proof.
  intros H. specialize (H "rOther" ambiguous_payment eq_refl).
  vm_compute in H. discriminate H.
Qed.

Lemma isXRPToXRPPayment_all_native_witness :
  isXRPToXRPPayment sample_partial = Ok true
  /\ (exists message,
         createPaymentTransaction "rSource" sample_partial
         = Throw (ValidationError message))
  /\ (forall tx,
         createPaymentTransaction "rSource" sample_payment = Ok tx ->
         tx_SendMax tx = None /\ tx_DeliverMin tx = None
         /\ tx_Paths tx = None).
Proof.
  split; [reflexivity|].
  destruct (isXRPToXRPPayment_all_native "rSource" sample_partial)
    as [_ H].
  destruct (H eq_refl) as [Hp _].
  destruct (isXRPToXRPPayment_all_native "rSource" sample_payment)
    as [_ H'].
  destruct (H' eq_refl) as [_ Hf].
  split; [exact (Hp eq_refl) | exact Hf].
Defined.

Lemma createPaymentTransaction_delivery_amount_witness :
  (exists tx,
      createPaymentTransaction "rSource" floored_payment = Ok tx
      /\ tx_Amount tx
         = AmountObject
             (mkIssued "USD" (Some "rDest") "9999999999999999e80"))
  /\ (exists tx,
         createPaymentTransaction "rSource" capped_payment = Ok tx
         /\ tx_Amount tx = AmountObject (mkIssued "USD" (Some "rDest") "4"))
  /\ (exists tx,
         createPaymentTransaction "rSource" native_floored_payment = Ok tx
         /\ tx_Amount tx = AmountString "1").
Proof.
  split; [|split]; (eexists; split; [reflexivity|]).
  - destruct (createPaymentTransaction_delivery_amount
                (X := Reference.externals) "rSource" floored_payment _
                eq_refl)
      as (g & d & n & _ & Hd & _ & _ & Hn & _ & Ha).
    injection Hd as <-. injection Hn as <-. exact Ha.
  - destruct (createPaymentTransaction_delivery_amount
                (X := Reference.externals) "rSource" capped_payment _
                eq_refl)
      as (g & d & n & _ & Hd & _ & _ & Hn & _ & Ha).
    injection Hd as <-. injection Hn as <-. exact Ha.
  - destruct (createPaymentTransaction_delivery_amount
                (X := Reference.externals) "rSource" native_floored_payment _
                eq_refl)
      as (g & d & n & _ & Hd & _ & _ & Hn & _ & Ha).
    injection Hd as <-. injection Hn as <-. exact Ha.
Defined.

Lemma requestPathFind_send_max_witness :
  (exists request,
      pathFindRequest fixed_spend_query = Ok request
      /\ send_max request
         = Some (AmountObject (mkIssued "USD" (Some "rSource") "5")))
  /\ requestPathFind both_amounts_query
     = Reject (ValidationError msg_both_amounts).
Proof.
  split.
  - destruct (requestPathFind_send_max fixed_spend_query (usd "5")
                eq_refl) as [_ H].
    destruct (H eq_refl) as (request & Hr & _ & _ & Ho & _).
    exists request. split; [exact Hr|].
    exact (Ho (mkIssued "USD" None "5") eq_refl (or_introl eq_refl)).
  - destruct (requestPathFind_send_max both_amounts_query (usd "5")
                eq_refl) as [H _].
    exact (proj1 (H "10" eq_refl)).
Defined.

Lemma conditionallyAddDirectXRPPath_injection_witness :
  conditionallyAddDirectXRPPath "rSource" issued_destination
  = Resolve issued_destination
  /\ run no_route (conditionallyAddDirectXRPPath "rSource" issued_destination)
     = ([], Ok issued_destination)
  /\ exists k,
       conditionallyAddDirectXRPPath "rSource" native_destination
       = getXRPBalance "rSource" k
       /\ k "1000000"
          = Resolve (response
                       [mkAlternative [] (Some (AmountString "1000000"))]
                       (AmountString "1000000") ["XRP"])
       /\ k "999999.9" = Resolve native_destination.
Proof.
  destruct (conditionallyAddDirectXRPPath_injection "rSource"
              issued_destination)
    as [Hskip _].
  destruct (Hskip (or_introl eq_refl)) as [Hr Hn].
  split; [exact Hr|]. split; [exact (Hn no_route)|].
  destruct (conditionallyAddDirectXRPPath_injection "rSource"
              native_destination)
    as [_ H].
  destruct (H "1000000" [] eq_refl
              (ex_intro _ ["XRP"] (conj eq_refl (or_introl eq_refl)))
              eq_refl) as (k & Hk & Hb).
  exists k. split; [exact Hk|].
  split; rewrite Hb; reflexivity.
Defined.

(** C2 as stated fails: the destination lists the native currency and the
    source holds 100, more than the 1 USD to deliver, yet no alternative is
    put in front, because the destination amount is an issued-currency
    amount. *)
Lemma conditionallyAddDirectXRPPath_injection_counterexample :
  ~ (forall (c : Connection) (address' : string)
            (paths : StoxumdPathsResponse) (alts : list Alternative)
            (balance : string),
        alternatives paths = Some alts ->
        answer_balance c address' = Ok balance ->
        (snd (run c (conditionallyAddDirectXRPPath address' paths))
         = Ok (set_alternatives paths (directAlternative paths :: alts))
         <-> accepts paths "XRP"
             /\ Reference.decimal_gte balance
                  (Reference.amount_value (rsp_destination_amount paths))
                = true)).
Proof.
  intros H.
  specialize (H no_route "rSource" issued_destination [] "100"
                eq_refl eq_refl).
  destruct H as [_ H].
  assert (Hd : snd (run no_route
                      (conditionallyAddDirectXRPPath "rSource"
                         issued_destination))
               = Ok (set_alternatives issued_destination
                       [directAlternative issued_destination])).
  { apply H. split; [|reflexivity].
    exists ["XRP"; "USD"]. split; [reflexivity | now left]. }
  vm_compute in Hd. discriminate Hd.
Qed.

(** C1. A query fixes a native source amount of 5 and leaves the value of
    the destination amount unset; the only alternative costs the string 5,
    numerically equal to the fixed amount. The claim keeps it; the filter
    discards it, as it does every alternative whose amount is a string. *)
Lemma filterSourceFundsLowPaths_equal_string_discarded :
  let paths :=
    response [mkAlternative [] (Some (AmountString "5"))]
      (issued "EUR" "-1") ["EUR"] in
  pf_source_amount (pf_source native_spend_query) = Some (xrp "5")
  /\ lax_value (pf_destination_amount (pf_destination native_spend_query))
     = None
  /\ Reference.decimal_eq (Reference.amount_value (AmountString "5"))
       (value (xrp "5"))
     = true
  /\ alternatives (filterSourceFundsLowPaths native_spend_query paths)
     = Some [].
Proof. cbv zeta. repeat split. Qed.

Lemma filterSourceFundsLowPaths_drops_strings_witness :
  alternatives
    (filterSourceFundsLowPaths fixed_spend_query
       (response three_alternatives (issued "EUR" "-1") ["EUR"]))
  = Some [mkAlternative [] (Some (issued "USD" "5.0"))]
  /\ exists kept,
       alternatives
         (filterSourceFundsLowPaths fixed_spend_query
            (response three_alternatives (issued "EUR" "-1") ["EUR"]))
       = Some kept
       /\ ~ In (mkAlternative [] (Some (AmountString "5"))) kept.
Proof.
  split; [reflexivity|].
  destruct (filterSourceFundsLowPaths_drops_strings
              fixed_spend_query
              (response three_alternatives (issued "EUR" "-1") ["EUR"])
              (usd "5") three_alternatives eq_refl eq_refl eq_refl)
    as (kept & Hk & _ & Hdrop).
  exists kept. split; [exact Hk|].
  apply Hdrop.
  - left. reflexivity.
  - right. exists "5". reflexivity.
Defined.

Lemma getPaths_not_found_witness :
  snd (run no_route (getPaths fixed_receive_query))
  = Throw (NotFoundError
             ("No paths found. The destination_account does not accept "
              ++ "EUR, they only accept: XRP, USD"))
  /\ snd (run no_route (getPaths accepted_query))
     = Throw (NotFoundError
                ("No paths found. Please ensure that the source_account has "
                 ++ "sufficient funds to execute the payment in one of the "
                 ++ "specified source_currencies. If it does there may be "
                 ++ "insufficient liquidity in the network to execute this "
                 ++ "payment right now"))
  /\ snd (run no_route (getPaths open_query))
     = Throw (NotFoundError
                ("No paths found. Please ensure that the source_account has "
                 ++ "sufficient funds to execute the payment. If it does "
                 ++ "there may be insufficient liquidity in the network to "
                 ++ "execute this payment right now")).
Proof.
  assert (Hacc : forall paths : StoxumdPathsResponse,
             destination_currencies paths = Some ["XRP"; "USD"] ->
             ~ refuses paths "USD").
  { intros paths Hd (l & Hl & Hnot). rewrite Hd in Hl. injection Hl as <-.
    apply Hnot. right. left. reflexivity. }
  split; [|split].
  - destruct (getPaths_not_found (X := Reference.externals) no_route
                fixed_receive_query _ _ tt eq_refl eq_refl eq_refl)
      as [H _].
    rewrite (H ["XRP"; "USD"] eq_refl).
    + reflexivity.
    + intros [E|[E|[]]]; discriminate E.
  - destruct (getPaths_not_found (X := Reference.externals) no_route
                accepted_query _ _ tt eq_refl eq_refl eq_refl)
      as (_ & H & _).
    rewrite H; [reflexivity | apply Hacc; reflexivity | reflexivity].
  - destruct (getPaths_not_found (X := Reference.externals) no_route
                open_query _ _ tt eq_refl eq_refl eq_refl)
      as (_ & _ & H & _).
    rewrite H; [reflexivity | apply Hacc; reflexivity | reflexivity].
Defined.

(** ** The further properties at concrete inputs *)

Lemma createPaymentTransaction_succeeds_iff_witness :
  exists tx, createPaymentTransaction "rSource" floored_payment = Ok tx.
Proof.
  apply (createPaymentTransaction_succeeds_iff (X := Reference.externals)
           "rSource" floored_payment (usd "5") (usd "4") eq_refl eq_refl).
  split; [reflexivity|]. split; [reflexivity|]. split; [discriminate|].
  intros _ text H. injection H as <-. eexists. reflexivity.
Defined.

Lemma createPaymentTransaction_flags_witness :
  exists tx,
    createPaymentTransaction "rSource" floored_payment = Ok tx
    /\ tx_Flags tx = 393216.
Proof.
  eexists. split; [reflexivity|].
  exact (createPaymentTransaction_flags (X := Reference.externals)
           "rSource" floored_payment _ false eq_refl eq_refl).
Defined.

Lemma createPaymentTransaction_envelope_witness :
  exists tx,
    createPaymentTransaction "rSource" floored_payment = Ok tx
    /\ tx_Account tx = "rSource" /\ tx_Destination tx = "rDest"
    /\ tx_SourceTag tx = None /\ tx_DestinationTag tx = Some 7.
Proof.
  eexists. split; [reflexivity|].
  destruct (createPaymentTransaction_envelope (X := Reference.externals)
              "rSource" floored_payment _ eq_refl)
    as (_ & Ha & Hd & Hs & Ht & _).
  repeat split; assumption.
Defined.

Lemma createPaymentTransaction_native_ignores_paths_witness :
  createPaymentTransaction "rSource" (with_paths sample_payment (Some ""))
  = createPaymentTransaction "rSource" sample_payment.
Proof.
  exact (createPaymentTransaction_native_ignores_paths
           (X := Reference.externals) "rSource" sample_payment (Some "")
           eq_refl).
Defined.

Lemma createPaymentTransaction_malformed_paths_witness :
  createPaymentTransaction "rSource" malformed_paths_payment
  = Throw (OtherError "Unexpected end of JSON input").
Proof.
  exact (createPaymentTransaction_malformed_paths
           (X := Reference.externals) malformed_paths_payment ""
           _ eq_refl eq_refl eq_refl eq_refl).
Defined.

Lemma preparePayment_calls_witness :
  (exists tx,
      run no_route (preparePayment "rSource" sample_payment tt)
      = ([CallPrepare tx], Ok "prepared"))
  /\ run no_route
       (preparePayment (X := Reference.rejecting) "rSource" sample_payment tt)
     = ([], Throw (ValidationError "instance does not match schema")).
Proof.
  split.
  - eexists.
    exact (proj2 (preparePayment_calls (X := Reference.externals) no_route
                    "rSource" sample_payment tt) tt _ eq_refl eq_refl).
  - exact (proj1 (preparePayment_calls (X := Reference.rejecting) no_route
                    "rSource" sample_payment tt) _ eq_refl).
Defined.

Lemma pathFindRequest_fails_iff_witness :
  pathFindRequest both_amounts_query
  = Throw (ValidationError msg_both_amounts)
  /\ exists request,
       pathFindRequest fixed_receive_query = Ok request
       /\ defined (send_max request) = false.
Proof.
  split.
  - exact (proj1 (pathFindRequest_fails_iff (X := Reference.externals)
                    both_amounts_query) eq_refl).
  - exact (proj2 (pathFindRequest_fails_iff (X := Reference.externals)
                    fixed_receive_query) eq_refl).
Defined.

Lemma pathFindRequest_destination_amount_witness :
  exists request,
    pathFindRequest fixed_spend_query = Ok request
    /\ destination_amount request
       = AmountObject (mkIssued "EUR" (Some "rDest") "-1").
Proof.
  eexists. split; [reflexivity|].
  exact (pathFindRequest_destination_amount (X := Reference.externals)
           fixed_spend_query _ eq_refl).
Defined.

Lemma pathFindRequest_issuers_witness :
  exists request,
    pathFindRequest fixed_spend_query = Ok request
    /\ forall o, send_max request = Some (AmountObject o) ->
                 falsy (iou_issuer o) = false.
Proof.
  eexists. split; [reflexivity|].
  apply (pathFindRequest_issuers (X := Reference.externals)
           fixed_spend_query _ eq_refl); discriminate.
Defined.

Lemma pathFindRequest_currencies_witness :
  exists request,
    pathFindRequest fixed_receive_query = Ok request
    /\ source_currencies request = Some [("USD", None)].
Proof.
  eexists. split; [reflexivity|].
  exact (proj1 (pathFindRequest_currencies (X := Reference.externals)
                  fixed_receive_query _ eq_refl)).
Defined.

Lemma conditionallyAddDirectXRPPath_missing_alternatives_witness :
  run no_route (conditionallyAddDirectXRPPath "rSource" no_alternatives_list)
  = ([CallBalance "rSource"], Ok no_alternatives_list)
  /\ run three_routes
       (conditionallyAddDirectXRPPath "rSource"
          (mkPaths None "rDest" (AmountString "99") (Some ["XRP"])
             "rSource" None))
     = ([CallBalance "rSource"], Throw TypeError).
Proof.
  split.
  - exact (conditionallyAddDirectXRPPath_missing_alternatives
             (X := Reference.externals) no_route "rSource"
             no_alternatives_list "1000000" "100" eq_refl eq_refl
             (ex_intro _ ["XRP"] (conj eq_refl (or_introl eq_refl)))
             eq_refl).
  - exact (conditionallyAddDirectXRPPath_missing_alternatives
             (X := Reference.externals) three_routes "rSource"
             (mkPaths None "rDest" (AmountString "99") (Some ["XRP"])
                "rSource" None)
             "99" "100" eq_refl eq_refl
             (ex_intro _ ["XRP"] (conj eq_refl (or_introl eq_refl)))
             eq_refl).
Defined.

Lemma conditionallyAddDirectXRPPath_calls_witness :
  snd (run disconnected
         (conditionallyAddDirectXRPPath "rSource" native_destination))
  = Throw (OtherError "disconnected").
Proof.
  exact (proj2 (conditionallyAddDirectXRPPath_calls
                  (X := Reference.externals) disconnected "rSource"
                  native_destination) _ eq_refl eq_refl).
Defined.

Lemma filterSourceFundsLowPaths_objects_witness :
  exists kept,
    alternatives
      (filterSourceFundsLowPaths fixed_spend_query
         (response three_alternatives (issued "EUR" "-1") ["EUR"]))
    = Some kept
    /\ In (mkAlternative [] (Some (issued "USD" "5.0"))) kept
    /\ ~ In (mkAlternative [] (Some (issued "USD" "4"))) kept.
Proof.
  destruct (filterSourceFundsLowPaths_objects (X := Reference.externals)
              fixed_spend_query
              (response three_alternatives (issued "EUR" "-1") ["EUR"])
              (usd "5") three_alternatives
              (mkAlternative [] (Some (issued "USD" "5.0"))) _
              eq_refl eq_refl eq_refl eq_refl) as (kept & Hk & Hin).
  destruct (filterSourceFundsLowPaths_objects (X := Reference.externals)
              fixed_spend_query
              (response three_alternatives (issued "EUR" "-1") ["EUR"])
              (usd "5") three_alternatives
              (mkAlternative [] (Some (issued "USD" "4"))) _
              eq_refl eq_refl eq_refl eq_refl) as (kept' & Hk' & Hout).
  exists kept. split; [exact Hk|]. split.
  - apply Hin. split; [right; left; reflexivity | reflexivity].
  - rewrite Hk in Hk'. injection Hk' as <-.
    intros H. apply Hout in H. destruct H as [_ H]. discriminate H.
Defined.

Lemma filterSourceFundsLowPaths_shrinks_witness :
  exists kept,
    alternatives
      (filterSourceFundsLowPaths fixed_spend_query
         (response three_alternatives (issued "EUR" "-1") ["EUR"]))
    = Some kept
    /\ (length kept <= 3)%nat.
Proof.
  destruct (filterSourceFundsLowPaths_shrinks (X := Reference.externals)
              fixed_spend_query
              (response three_alternatives (issued "EUR" "-1") ["EUR"]))
    as (_ & H & _).
  destruct (H three_alternatives eq_refl) as (kept & Hk & _ & Hl).
  exists kept. split; [exact Hk | exact Hl].
Defined.

Lemma formatResponse_routes_or_not_found_witness :
  formatResponse fixed_spend_query
    (response three_alternatives (issued "USD" "1") ["USD"])
  = Ok [Some (AmountString "5"); Some (issued "USD" "5.0");
        Some (issued "USD" "4")]
  /\ exists message,
       formatResponse fixed_spend_query issued_destination
       = Throw (NotFoundError message).
Proof.
  split.
  - apply (proj1 (formatResponse_routes_or_not_found
                    (X := Reference.externals) fixed_spend_query
                    (response three_alternatives (issued "USD" "1") ["USD"]))
             three_alternatives eq_refl).
    + discriminate.
    + intros alt [<-|[<-|[<-|[]]]]; discriminate.
  - exact (proj2 (formatResponse_routes_or_not_found
                    (X := Reference.externals) fixed_spend_query
                    issued_destination) eq_refl).
Defined.

Lemma getPaths_failures_witness :
  (exists request,
      run disconnected (getPaths fixed_spend_query)
      = ([CallRequest request], Throw (OtherError "disconnected")))
  /\ run three_routes (getPaths (X := Reference.rejecting) fixed_spend_query)
     = ([], Throw (ValidationError "instance does not match schema")).
Proof.
  split.
  - eexists.
    exact (proj2 (getPaths_failures (X := Reference.externals) disconnected
                    fixed_spend_query) tt _ _ eq_refl eq_refl eq_refl).
  - exact (proj1 (getPaths_failures (X := Reference.rejecting) three_routes
                    fixed_spend_query) _ eq_refl).
Defined.

Lemma getPaths_routes_witness :
  exists calls processed,
    run three_routes (processedResponse fixed_spend_query)
    = (calls, Ok processed)
    /\ alternatives processed
       = Some [mkAlternative [] (Some (issued "USD" "5.0"))].
Proof.
  destruct (getPaths_routes (X := Reference.externals) three_routes
              fixed_spend_query _ _ eq_refl) as (processed & Hr & _ & _).
  eexists. exists processed. split; [exact Hr|].
  vm_compute in Hr. injection Hr as <-. reflexivity.
Defined.

Lemma processedResponse_fixed_spend_witness :
  exists o,
    Some (issued "USD" "5.0") = Some (AmountObject o)
    /\ Reference.decimal_eq (iou_value o) "5" = true.
Proof.
  exact (processedResponse_fixed_spend (X := Reference.externals)
           three_routes fixed_spend_query _ _ (usd "5") _
           (mkAlternative [] (Some (issued "USD" "5.0")))
           eq_refl eq_refl eq_refl (or_introl eq_refl)).
Defined.

Lemma processedResponse_header_witness :
  exists processed,
    snd (run three_routes (processedResponse fixed_spend_query))
    = Ok processed
    /\ rsp_destination_amount processed
       = AmountObject (mkIssued "EUR" (Some "rDest") "-1")
    /\ rsp_source_account processed = "rSource".
Proof.
  eexists. split; [reflexivity|].
  destruct (processedResponse_header (X := Reference.externals) three_routes
              fixed_spend_query _ _ eq_refl)
    as (request & raw & Hr & Ha & Hacc & _ & _ & _ & Hamt).
  vm_compute in Hr. injection Hr as <-.
  vm_compute in Ha. injection Ha as <-.
  split; [exact Hamt | exact Hacc].
Defined.

(** C8. One amount object, 1 USD without counterparty, is both the source's
    [maxAmount] and the destination's [amount]. Defaulting visits the source
    first and writes the source's address on the object; at the destination
    the object has a counterparty and is left alone: the destination amount
    has the source's address, not the destination's own. With two amount
    objects each side gets its own address. *)
Lemma applyAnyCounterpartyEncodingInPlace_shared_amount :
  let h' := applyAnyCounterpartyEncodingInPlace shared_intent shared_heap in
  let h2 := applyAnyCounterpartyEncodingInPlace separate_intent
              separate_heap in
  o_maxAmount (o_source shared_intent)
  = o_amount (o_destination shared_intent)
  /\ object_key shared_heap (o_destination shared_intent) key_amount
     = Some (mkAmount "USD" "1" None)
  /\ o_address (o_source shared_intent) = "rSource"
  /\ o_address (o_destination shared_intent) = "rDest"
  /\ object_key h' (o_source shared_intent) key_maxAmount
     = Some (mkAmount "USD" "1" (Some "rSource"))
  /\ object_key h' (o_destination shared_intent) key_amount
     = Some (mkAmount "USD" "1" (Some "rSource"))
  /\ (exists tx,
         createPaymentTransactionObject "rSource" shared_intent shared_heap
         = Ok tx
         /\ tx_Amount tx
            = AmountObject (mkIssued "USD" (Some "rSource") "1"))
  /\ object_key h2 (o_destination separate_intent) key_amount
     = Some (mkAmount "USD" "1" (Some "rDest")).
Proof.
  cbv zeta.
  repeat (split; [reflexivity|]).
  split; [|reflexivity].
  eexists. split; reflexivity.
Qed.

Lemma createPaymentTransactionObject_send_max_witness :
  (exists tx,
      createPaymentTransactionObject "rSource" separate_floored_intent
        separate_heap = Ok tx
      /\ tx_SendMax tx
         = Some (AmountObject (mkIssued "USD" (Some "rSource") "1"))
      /\ tx_DeliverMin tx
         = Some (AmountObject (mkIssued "USD" (Some "rDest") "1")))
  /\ (exists tx,
         createPaymentTransactionObject "rSource" shared_floored_intent
           shared_heap = Ok tx
         /\ tx_DeliverMin tx
            = Some (AmountObject (mkIssued "USD" (Some "rSource") "1"))).
Proof.
  split; (eexists; split; [reflexivity|]).
  - destruct (createPaymentTransactionObject_send_max
                (X := Reference.externals) "rSource" separate_floored_intent
                separate_heap _ eq_refl eq_refl)
      as (s & d & r & Hs & Hr & Hd & Hm & Hmin).
    injection Hs as <-. injection Hr as <-. injection Hd as <-.
    split; [exact Hm | exact Hmin].
  - destruct (createPaymentTransactionObject_send_max
                (X := Reference.externals) "rSource" shared_floored_intent
                shared_heap _ eq_refl eq_refl)
      as (s & d & r & Hs & Hr & Hd & Hm & Hmin).
    injection Hs as <-. injection Hr as <-. injection Hd as <-.
    exact Hmin.
Defined.
